(** * The wikipedia chatbot (a10.py): pattern dispatch and text clean-up

    A shallow embedding of [src/a10.py].  Python [str] values are Rocq
    strings whose characters are the code points below 256; Python lists
    of strings are [list string].  Code that can raise or that talks to the
    network lives in a small state-and-exception monad over an abstract
    world. *)

From Stdlib Require Import List String Ascii Bool Arith Lia.
Import ListNotations.

Local Open Scope string_scope.
Local Open Scope list_scope.

(** ** Python string primitives used by the program *)

(** [sep.join(parts)]. *)
Definition join (sep : string) (parts : list string) : string :=
  String.concat sep parts.

(** The line feed character, written ["\n"] in the Python source. *)
Definition LF : ascii := "010"%char.

(** ** The matcher *)

Module Matcher.

(** The two wildcard markers as they are spelled in the patterns of
    [pa_list]. *)
Definition SINGLE : string := "_".
Definition MULTI : string := "%".

(** Modelled from the spec: one consumption loop of a [MULTI] wildcard,
    missing with [match.py].  [taken] is the run of tokens consumed so far
    and [rest] what is left; [k] matches the remainder of the pattern.
    Consumption lengths are tried from the present one upward, and the
    first split on which [k] succeeds is the one returned, with the
    space-joined run as the wildcard's capture. *)
Fixpoint multi_splits (k : list string -> option (list string))
         (taken rest : list string) : option (list string) :=
  match k rest with
  | Some caps => Some (join " " taken :: caps)
  | None =>
      match rest with
      | [] => None
      | tok :: rest' => multi_splits k (taken ++ [tok]) rest'
      end
  end.

(** Modelled from the spec: the function [match] of the module [match.py],
    which [a10.py] imports and which is not part of the sources at hand
    (spec section 4.1).  The pattern is walked left to right: the empty
    pattern matches only the empty input; [MULTI] tries every split,
    shortest first; [SINGLE] captures exactly one token; a literal must be
    identical to the next token. *)
Fixpoint match_ (pattern source : list string) : option (list string) :=
  match pattern with
  | [] =>
      match source with
      | [] => Some []
      | _ :: _ => None
      end
  | p :: pattern' =>
      if String.eqb p MULTI then multi_splits (match_ pattern') [] source
      else
        match source with
        | [] => None
        | tok :: source' =>
            if String.eqb p SINGLE then
              option_map (cons tok) (match_ pattern' source')
            else if String.eqb p tok then match_ pattern' source'
            else None
        end
  end.

(** A pattern element is a wildcard marker. *)
Definition is_wildcard (p : string) : bool :=
  String.eqb p MULTI || String.eqb p SINGLE.

(** The pattern contains no wildcard marker. *)
Definition literal_pattern (pattern : list string) : bool :=
  forallb (fun p => negb (is_wildcard p)) pattern.

End Matcher.

(** ** Exceptions and the effect monad *)

(** The Python exceptions the program raises itself, and [OtherError] for
    whatever the external packages raise on their own. *)
Inductive exn : Type :=
| KeyboardInterrupt
| EOFError
| AttributeError (msg : string)
| LookupError (msg : string)
| IndexError (msg : string)
| OtherError (name msg : string).

(** How a call ends: with a value or with a raised exception. *)
Inductive outcome (A : Type) : Type :=
| Ok (a : A)
| Raise (e : exn).
Arguments Ok {A} a.
Arguments Raise {A} e.

(** A computation over the world [W] (the network, the encyclopedia). *)
Definition M (W A : Type) : Type := W -> W * outcome A.

Definition ret {W A : Type} (a : A) : M W A := fun w => (w, Ok a).

Definition raise {W A : Type} (e : exn) : M W A := fun w => (w, Raise e).

Definition bind {W A B : Type} (c : M W A) (k : A -> M W B) : M W B :=
  fun w =>
    match c w with
    | (w', Ok a) => k a w'
    | (w', Raise e) => (w', Raise e)
    end.

Notation "x <- c ;; k" := (bind c (fun x => k))
  (at level 61, c at next level, right associativity).

(** [xs[i]] on a Python list, for an index that is not negative. *)
Definition index {W A : Type} (xs : list A) (i : nat) : M W A :=
  match nth_error xs i with
  | Some x => ret x
  | None => raise (IndexError "list index out of range")
  end.

(** ** Text clean-up *)

(** [string.printable]: digits, letters, punctuation and whitespace. *)
Definition digits : string := "0123456789".
Definition ascii_lowercase : string := "abcdefghijklmnopqrstuvwxyz".
Definition ascii_uppercase : string := "ABCDEFGHIJKLMNOPQRSTUVWXYZ".
Definition punctuation : string :=
  "!" ++ String "034"%char "#$%&'()*+,-./:;<=>?@[\]^_`{|}~".
Definition whitespace : string :=
  String " "%char (String "009"%char (String LF (String "013"%char
    (String "011"%char (String "012"%char EmptyString))))).
Definition printable : string :=
  digits ++ ascii_lowercase ++ ascii_uppercase ++ punctuation ++ whitespace.

(** [char in s] for a one-character [char]. *)
Fixpoint char_in (c : ascii) (s : string) : bool :=
  match s with
  | EmptyString => false
  | String a s' => Ascii.eqb c a || char_in c s'
  end.

(** ["".join([f(char) for char in text])] for a one-character [f char]. *)
Fixpoint map_chars (f : ascii -> ascii) (text : string) : string :=
  match text with
  | EmptyString => EmptyString
  | String a s' => String (f a) (map_chars f s')
  end.

(** [re.sub(c + "+", c, text)] for a one-character [c]: every maximal run
    of [c] is replaced by a single [c].  A [c] that another [c] follows is
    dropped, so the last one of each run stays. *)
Fixpoint sub_runs (c : ascii) (text : string) : string :=
  match text with
  | EmptyString => EmptyString
  | String a s' =>
      match s' with
      | String b _ =>
          if Ascii.eqb a c && Ascii.eqb b c then sub_runs c s'
          else String a (sub_runs c s')
      | EmptyString => String a EmptyString
      end
  end.

(** [char if char in string.printable else " "]. *)
Definition ascii_or_space (char : ascii) : ascii :=
  if char_in char printable then char else " "%char.

Definition clean_text (text : string) : string :=
  let only_ascii := map_chars ascii_or_space text in
  let no_dup_spaces := sub_runs " "%char only_ascii in
  let no_dup_newlines := sub_runs LF no_dup_spaces in
  no_dup_newlines.

(** Every character of [s] satisfies [p]. *)
Fixpoint all_chars (p : ascii -> bool) (s : string) : bool :=
  match s with
  | EmptyString => true
  | String a s' => p a && all_chars p s'
  end.

(** [s] has no two neighbouring characters that are both [c]. *)
Fixpoint no_double (c : ascii) (s : string) : bool :=
  match s with
  | EmptyString => true
  | String a s' =>
      match s' with
      | String b _ => negb (Ascii.eqb a c && Ascii.eqb b c) && no_double c s'
      | EmptyString => true
      end
  end.

(** ** Tokenizing a query line *)

(** [text.replace(old, new)] for a one-character [old]. *)
Fixpoint replace (old : ascii) (new : string) (text : string) : string :=
  match text with
  | EmptyString => EmptyString
  | String a s' =>
      if Ascii.eqb a old then new ++ replace old new s'
      else String a (replace old new s')
  end.

(** [str.lower] on one code point below 256: the letters A-Z and the
    capital letters of Latin-1 move up by 32. *)
Definition lower_char (c : ascii) : ascii :=
  let n := nat_of_ascii c in
  if (((65 <=? n) && (n <=? 90))
      || ((192 <=? n) && (n <=? 222) && negb (n =? 215)))%nat
  then ascii_of_nat (n + 32) else c.

Definition lower (text : string) : string := map_chars lower_char text.

(** [str.isspace] on one code point below 256. *)
Definition isspace (c : ascii) : bool :=
  let n := nat_of_ascii c in
  (((9 <=? n) && (n <=? 13)) || ((28 <=? n) && (n <=? 32))
   || (n =? 133) || (n =? 160))%nat.

(** [text.split()] without arguments: the maximal runs of characters that
    are not whitespace.  [cur] is the token being read. *)
Fixpoint split_from (cur : string) (text : string) : list string :=
  match text with
  | EmptyString =>
      match cur with
      | EmptyString => []
      | _ => [cur]
      end
  | String a s' =>
      if isspace a then
        match cur with
        | EmptyString => split_from EmptyString s'
        | _ => cur :: split_from EmptyString s'
        end
      else split_from (cur ++ String a EmptyString) s'
  end.

Definition split (text : string) : list string := split_from EmptyString text.

(** The tokens [query_loop] hands to [search_pa_list] for a line read from
    the terminal: [line.replace("?", "").lower().split()]. *)
Definition query_tokens (line : string) : list string :=
  split (lower (replace "?"%char "" line)).

(** What every character of a token satisfies: it is no whitespace, no
    query mark, and lower case already. *)
Definition token_char (c : ascii) : bool :=
  negb (isspace c) && negb (Ascii.eqb c "?"%char)
  && Ascii.eqb (lower_char c) c.

(** The tokenization as the specification words it: lower case, ONE
    trailing query mark stripped, split on whitespace.  Kept beside
    [query_tokens] to compare the two. *)
Fixpoint strip_trailing (mark : ascii) (text : string) : string :=
  match text with
  | EmptyString => EmptyString
  | String a s' =>
      match s' with
      | EmptyString => if Ascii.eqb a mark then EmptyString else text
      | String _ _ => String a (strip_trailing mark s')
      end
  end.

Definition query_tokens_trailing_only (line : string) : list string :=
  split (lower (strip_trailing "?"%char line)).

(** The characters of [s] that satisfy [p], in their order. *)
Fixpoint filter_chars (p : ascii -> bool) (s : string) : string :=
  match s with
  | EmptyString => EmptyString
  | String a s' =>
      if p a then String a (filter_chars p s') else filter_chars p s'
  end.

(** ** The terminal *)

(** What [print(s)] writes: the text and a line feed. *)
Definition print (s : string) : string := s ++ String LF EmptyString.

(** What [input] meets at the prompt: a typed line, or Ctrl-C, or Ctrl-D.
    A keyboard that has nothing more to give is at its end of file. *)
Inductive key : Type :=
| Typed (line : string)
| CtrlC
| CtrlD.

Definition welcome : string :=
  "Welcome to the wikipedia chatbot!" ++ String LF EmptyString.
Definition prompt : string := "Your query? ".
Definition so_long : string :=
  String LF ("So long!" ++ String LF EmptyString).

(** ** The lookup layer and the dispatcher *)

(** A regular expression match object, seen through [m.group(name)]. *)
Definition Match : Type := string -> string.

Section Chatbot.

(** The world the external packages act on. *)
Variable W : Type.

(** [wikipedia.search(title)]. *)
Variable wikipedia_search : string -> M W (list string).

(** [WikipediaPage(title).html()]. *)
Variable WikipediaPage_html : string -> M W string.

(** [BeautifulSoup(html, "html.parser").find_all(class_="infobox")], each
    element seen through its [.text]. *)
Variable find_all_infobox : string -> list string.

(** [re.compile(pattern, re.DOTALL | re.IGNORECASE).search(text)]. *)
Variable re_search : string -> string -> option Match.

(** [re.escape]. *)
Variable re_escape : string -> string.

(** The function [match] imported from [match.py]: the captures, or [None]
    when the pattern does not describe the source. *)
Variable matcher : list string -> list string -> option (list string).

Definition get_page_html (title : string) : M W string :=
  results <- wikipedia_search title ;;
  first <- index results 0 ;;
  WikipediaPage_html first.

Definition get_first_infobox_text (html : string) : M W string :=
  let results := find_all_infobox html in
  match results with
  | [] => raise (LookupError "Page has no infobox")
  | first :: _ => ret first
  end.

Definition default_error_text : string :=
  "Page doesn't appear to have the property you're expecting".

Definition get_match (text pattern error_text : string) : M W Match :=
  match re_search pattern text with
  | None => raise (AttributeError error_text)
  | Some m => ret m
  end.

(** [clean_text(get_first_infobox_text(get_page_html(name)))], the first
    line of every field lookup. *)
Definition infobox_text_of (name : string) : M W string :=
  html <- get_page_html name ;;
  box <- get_first_infobox_text html ;;
  ret (clean_text box).

Definition get_polar_radius (planet_name : string) : M W string :=
  infobox_text <- infobox_text_of planet_name ;;
  let pattern :=
    "(?:Polar radius.*?)(?: ?[\d]+ )?(?P<radius>[\d,.]+)(?:.*?)km" in
  let error_text := "Page infobox has no polar radius information" in
  m <- get_match infobox_text pattern error_text ;;
  ret (m "radius").

Definition get_birth_date (name : string) : M W string :=
  infobox_text <- infobox_text_of name ;;
  let pattern := "(?:Born\D*)(?P<birth>\d{4}-\d{2}-\d{2})" in
  let error_text :=
    "Page infobox has no birth information (at least none in xxxx-xx-xx format)"
  in
  m <- get_match infobox_text pattern error_text ;;
  ret (m "birth").

Definition get_address (school_name : string) : M W string :=
  infobox_text <- infobox_text_of school_name ;;
  let pattern :=
    "(?:Address\s*:?\s*)(?P<address>[\d\w\s\.,]+?)(?=\s*(?:Street|Coordinates)|$)"
  in
  let error_text := "Page infobox has no address information" in
  match_obj <- get_match infobox_text pattern error_text ;;
  ret (match_obj "address").

Definition get_elevation (airport_name : string) : M W string :=
  infobox_text <- infobox_text_of airport_name ;;
  let pattern := "(?:Elevation AMSL.*?)(?P<elevation>[\d,.]+)(?:.*?)ft" in
  let error_text := "Page infobox has no elevation information" in
  m <- get_match infobox_text pattern error_text ;;
  ret (m "elevation").

Definition get_runway_length (airport_name runway_name : string)
  : M W string :=
  infobox_text <- infobox_text_of airport_name ;;
  let pattern :=
    ("(?i)" ++ re_escape runway_name ++ "\n(?P<length>[^\n]*)")%string in
  let error_text := "Page infobox has no runway length information" in
  m <- get_match infobox_text pattern error_text ;;
  ret (m "length").

(** The actions: each takes the captures and returns a list of answers. *)
Definition Pattern : Type := list string.
Definition Action : Type := list string -> M W (list string).

Definition birth_date (matches : list string) : M W (list string) :=
  r <- get_birth_date (join " " matches) ;;
  ret [r].

Definition polar_radius (matches : list string) : M W (list string) :=
  planet <- index matches 0 ;;
  r <- get_polar_radius planet ;;
  ret [r].

Definition address (matches : list string) : M W (list string) :=
  r <- get_address (join " " matches) ;;
  ret [r].

Definition elevation (matches : list string) : M W (list string) :=
  r <- get_elevation (join " " matches) ;;
  ret [(r ++ " ft")%string].

Definition runway_length (matches : list string) : M W (list string) :=
  airport <- index matches 1 ;;
  runway <- index matches 0 ;;
  r <- get_runway_length airport runway ;;
  ret [(r ++ " ft")%string].

Definition bye_action (dummy : list string) : M W (list string) :=
  raise KeyboardInterrupt.

Definition pa_list : list (Pattern * Action) :=
  [ (split "when was % born", birth_date);
    (split "what is the polar radius of %", polar_radius);
    (split "what is the address of %", address);
    (split "what is the elevation of %", elevation);
    (split "what is the length of runway _ at %", runway_length);
    (["bye"], bye_action) ].

(** [answer if answer else ["No answers"]]. *)
Definition or_no_answers (answer : list string) : list string :=
  match answer with
  | [] => ["No answers"]
  | _ :: _ => answer
  end.

(** The loop of [search_pa_list] over the entries that are left. *)
Fixpoint search_pa_loop (entries : list (Pattern * Action))
         (src : list string) : M W (list string) :=
  match entries with
  | [] => ret ["I don't understand"]
  | (pat, act) :: entries' =>
      match matcher pat src with
      | Some mat =>
          answer <- act mat ;;
          ret (or_no_answers answer)
      | None => search_pa_loop entries' src
      end
  end.

Definition search_pa_list (src : list string) : M W (list string) :=
  search_pa_loop pa_list src.

(** No pattern of the entries [tbl] matches [src]. *)
Definition none_match (tbl : list (Pattern * Action)) (src : list string)
  : Prop :=
  forall pat act, In (pat, act) tbl -> matcher pat src = None.

(** One turn of [query_loop] on a line typed at the prompt: the answers to
    print, or the exception that leaves the [try] block. *)
Definition query_turn (line : string) : M W (list string) :=
  search_pa_list (query_tokens line).

(** The [while True] loop of [query_loop] on the keys that are left: the
    world it ends in, what it wrote, and the exception that left it, if any
    did.  Each turn writes an empty line and the prompt; [input] raises
    [KeyboardInterrupt] on Ctrl-C and [EOFError] on Ctrl-D or at the end of
    the keyboard; these two, from [input] or from the dispatcher, end the
    loop, and any other exception leaves it uncaught. *)
Fixpoint query_loop_from (keys : list key) (w : W)
  : W * list string * option exn :=
  match keys with
  | Typed line :: keys' =>
      match query_turn line w with
      | (w', Ok answers) =>
          match query_loop_from keys' w' with
          | (w'', out, res) =>
              (w'', [print ""; prompt] ++ map print answers ++ out, res)
          end
      | (w', Raise KeyboardInterrupt) => (w', [print ""; prompt], None)
      | (w', Raise EOFError) => (w', [print ""; prompt], None)
      | (w', Raise e) => (w', [print ""; prompt], Some e)
      end
  | CtrlC :: _ => (w, [print ""; prompt], None)
  | CtrlD :: _ => (w, [print ""; prompt], None)
  | [] => (w, [print ""; prompt], None)
  end.

(** [query_loop]: the welcome, the loop, and the farewell when the loop
    was left by [break]. *)
Definition query_loop (keys : list key) (w : W)
  : W * list string * option exn :=
  match query_loop_from keys w with
  | (w', out, None) => (w', [print welcome] ++ out ++ [print so_long], None)
  | (w', out, Some e) => (w', [print welcome] ++ out, Some e)
  end.

End Chatbot.

Arguments get_page_html {W}.
Arguments get_first_infobox_text {W}.
Arguments get_match {W}.
Arguments infobox_text_of {W}.
Arguments get_polar_radius {W}.
Arguments get_birth_date {W}.
Arguments get_address {W}.
Arguments get_elevation {W}.
Arguments get_runway_length {W}.
Arguments birth_date {W}.
Arguments polar_radius {W}.
Arguments address {W}.
Arguments elevation {W}.
Arguments runway_length {W}.
Arguments bye_action {W}.
Arguments pa_list {W}.
Arguments search_pa_loop {W}.
Arguments search_pa_list {W}.
Arguments none_match {W}.
Arguments query_turn {W}.
Arguments query_loop_from {W}.
Arguments query_loop {W}.

(** ** A call log, to observe which actions run *)

(** [logged i act] runs [act] and notes [i] in the log kept beside the
    world. *)
Definition logged {W : Type} (i : nat) (act : Action W)
  : Action (W * list nat) :=
  fun mat s =>
    match act mat (fst s) with
    | (w', r) => ((w', snd s ++ [i]), r)
    end.

(** The table with every action logged under its position, counted from
    [i]. *)
Fixpoint log_table {W : Type} (i : nat) (tbl : list (Pattern * Action W))
  : list (Pattern * Action (W * list nat)) :=
  match tbl with
  | [] => []
  | (pat, act) :: tbl' => (pat, logged i act) :: log_table (S i) tbl'
  end.

(** ** A small closed world, to run the program on *)

Module Demo.

(** The world counts the network calls made so far. *)
Definition World : Type := nat.

(** The search finds a page for every title but ["nowhere"]. *)
Definition wikipedia_search (title : string) : M World (list string) :=
  fun w => (S w, Ok (if String.eqb title "nowhere" then [] else [title])).

(** A page's html is its title again. *)
Definition WikipediaPage_html (title : string) : M World string :=
  fun w => (S w, Ok title).

(** Only the page of ["mars"] has an infobox. *)
Definition find_all_infobox (html : string) : list string :=
  if String.eqb html "mars" then ["Polar radius 3376.2 km"; "second box"]
  else [].

(** The one regular expression that finds something is the polar radius
    one, on the infobox of ["mars"]. *)
Definition re_search (pattern text : string) : option Match :=
  if String.eqb text "Polar radius 3376.2 km"
     && String.eqb pattern
          "(?:Polar radius.*?)(?: ?[\d]+ )?(?P<radius>[\d,.]+)(?:.*?)km"
  then Some (fun _ => "3376.2") else None.

Definition re_escape (s : string) : string := s.

(** The program on this world, with the matcher of the specification. *)
Definition search (src : list string) : M World (list string) :=
  search_pa_list wikipedia_search WikipediaPage_html find_all_infobox
                 re_search re_escape Matcher.match_ src.

(** A session of the program at this world's terminal. *)
Definition session (keys : list key)
  : World -> World * list string * option exn :=
  query_loop wikipedia_search WikipediaPage_html find_all_infobox
             re_search re_escape Matcher.match_ keys.

End Demo.

(** * Properties *)

(** ** The matcher *)

Module MatcherFacts.
Import Matcher.

Example match_born :
  match_ ["when"; "was"; "%"; "born"]
         ["when"; "was"; "ada"; "lovelace"; "born"]
  = Some ["ada lovelace"].
Proof. reflexivity. Qed.

Example match_runway :
  match_ ["what"; "is"; "the"; "length"; "of"; "runway"; "_"; "at"; "%"]
         ["what"; "is"; "the"; "length"; "of"; "runway"; "4l"; "at";
          "heathrow"]
  = Some ["4l"; "heathrow"].
Proof. reflexivity. Qed.

Example match_two_multi : match_ ["%"; "%"] ["a"; "b"] = Some [""; "a b"].
Proof. reflexivity. Qed.

Example match_marker_in_input : match_ ["a"] ["%"] = None.
Proof. reflexivity. Qed.

(** The split loop returns at the least consumption length on which the
    continuation succeeds. *)
Lemma multi_splits_first (k : list string -> option (list string)) :
  forall (rest taken : list string) (n : nat) (caps : list string),
    n <= List.length rest ->
    k (skipn n rest) = Some caps ->
    (forall j, j < n -> k (skipn j rest) = None) ->
    multi_splits k taken rest
    = Some (join " " (taken ++ firstn n rest) :: caps).
Proof.
  induction rest as [|tok rest IH]; intros taken n caps Hn Hk Hmin.
  - destruct n; [|simpl in Hn; lia].
    simpl in *. rewrite Hk, app_nil_r. reflexivity.
  - destruct n as [|n].
    + simpl in Hk. simpl. rewrite Hk, app_nil_r. reflexivity.
    + assert (H0 : k (tok :: rest) = None) by (apply (Hmin 0); lia).
      simpl. rewrite H0.
      rewrite (IH (taken ++ [tok]) n caps).
      * rewrite <- app_assoc. reflexivity.
      * simpl in Hn. lia.
      * exact Hk.
      * intros j Hj. apply (Hmin (S j)). lia.
Qed.

(** The split loop reports no match when the continuation fails on every
    consumption length. *)
Lemma multi_splits_none (k : list string -> option (list string)) :
  forall (rest taken : list string),
    (forall j, j <= List.length rest -> k (skipn j rest) = None) ->
    multi_splits k taken rest = None.
Proof.
  induction rest as [|tok rest IH]; intros taken Hall.
  - assert (H0 : k [] = None) by (apply (Hall 0); simpl; lia).
    simpl. rewrite H0. reflexivity.
  - assert (H0 : k (tok :: rest) = None) by (apply (Hall 0); simpl; lia).
    simpl. rewrite H0.
    apply IH. intros j Hj. apply (Hall (S j)). simpl. lia.
Qed.

(** A lone [MULTI] takes the whole input. *)
Lemma match_multi_alone (I : list string) :
  match_ [MULTI] I = Some [join " " I].
Proof.
  change (match_ [MULTI] I) with (multi_splits (match_ []) [] I).
  rewrite (multi_splits_first (match_ []) I [] (List.length I) []).
  - rewrite firstn_all. reflexivity.
  - lia.
  - rewrite skipn_all. reflexivity.
  - intros j Hj.
    destruct (skipn j I) eqn:E; [|reflexivity].
    assert (H := length_skipn j I). rewrite E in H. simpl in H. lia.
Qed.

(** C2: for every input [I], matching the one-element pattern [[MULTI]]
    succeeds with exactly one capture, the space-joined tokens of [I] (the
    empty string for the empty input); and when a remainder [rest] follows
    a [MULTI], consumption lengths are tried from zero upward: the match
    succeeds on the least length [n] whose remaining input [rest] matches,
    capturing the joined first [n] tokens, and fails when no length does. *)
Theorem match_multi_shortest_first :
  (forall I : list string, match_ [MULTI] I = Some [join " " I])
  /\ match_ [MULTI] [] = Some [""]
  /\ (forall (rest I : list string) (n : nat) (caps : list string),
        n <= List.length I ->
        match_ rest (skipn n I) = Some caps ->
        (forall j, j < n -> match_ rest (skipn j I) = None) ->
        match_ (MULTI :: rest) I = Some (join " " (firstn n I) :: caps))
  /\ (forall rest I : list string,
        (forall j, j <= List.length I -> match_ rest (skipn j I) = None) ->
        match_ (MULTI :: rest) I = None).
Proof.
  split; [exact match_multi_alone|].
  split; [reflexivity|].
  split.
  - intros rest I n caps Hn Hk Hmin.
    change (match_ (MULTI :: rest) I) with (multi_splits (match_ rest) [] I).
    apply (multi_splits_first (match_ rest) I [] n caps Hn Hk Hmin).
  - intros rest I Hall.
    change (match_ (MULTI :: rest) I) with (multi_splits (match_ rest) [] I).
    apply multi_splits_none. exact Hall.
Qed.

Lemma match_multi_shortest_first_witness :
  match_ ["%"; "b"; "%"] ["a"; "b"; "c"; "b"] = Some ["a"; "c b"]
  /\ match_ ["%"; "z"] ["a"; "b"] = None.
Proof.
  destruct match_multi_shortest_first as (_ & _ & Hfirst & Hnone).
  split.
  - apply (Hfirst ["b"; "%"] ["a"; "b"; "c"; "b"] 1 ["c b"]).
    + simpl. lia.
    + reflexivity.
    + intros j Hj. assert (j = 0) by lia. subst j. reflexivity.
  - apply (Hnone ["z"] ["a"; "b"]).
    intros j Hj. simpl in Hj.
    destruct j as [|[|[|j]]]; reflexivity.
Defined.

(** C3: for a pattern [P] without wildcard markers and any input [I], the
    match succeeds exactly when [P] and [I] are the same token sequence,
    and a successful match has the empty capture set. *)
Theorem match_literal_iff_equal (P I : list string)
        (Hlit : literal_pattern P = true) :
  ((exists caps, match_ P I = Some caps) <-> P = I)
  /\ (forall caps, match_ P I = Some caps -> caps = [])
  /\ (P = I -> match_ P I = Some []).
Proof.
  revert I Hlit.
  induction P as [|p P IH]; intros I Hlit.
  - destruct I as [|tok I]; simpl.
    + split; [split; eauto|split; congruence].
    + split; [split; [intros [caps H]|]; discriminate|split; congruence].
  - simpl in Hlit. apply andb_true_iff in Hlit. destruct Hlit as [Hp HP].
    unfold is_wildcard in Hp. apply negb_true_iff in Hp.
    apply orb_false_iff in Hp. destruct Hp as [Hm Hs].
    simpl. rewrite Hm.
    destruct I as [|tok I].
    + split; [split; [intros [caps H]|]; discriminate|split; congruence].
    + rewrite Hs.
      destruct (IH I HP) as (Hiff & Hcaps & Heq).
      destruct (String.eqb_spec p tok) as [->|Hne].
      * split; [split|split].
        -- intros Hex. f_equal. apply Hiff. exact Hex.
        -- intros E. apply Hiff. congruence.
        -- exact Hcaps.
        -- intros E. apply Heq. congruence.
      * split; [split; [intros [caps H]; discriminate|congruence]
               |split; congruence].
Qed.

Lemma match_literal_iff_equal_witness :
  literal_pattern ["what"; "is"] = true
  /\ ((exists caps, match_ ["what"; "is"] ["what"; "is"] = Some caps)
      <-> ["what"; "is"] = ["what"; "is"])
  /\ (forall caps, match_ ["what"; "is"] ["what"; "is"] = Some caps
                   -> caps = [])
  /\ (["what"; "is"] = ["what"; "is"]
      -> match_ ["what"; "is"] ["what"; "is"] = Some []).
Proof.
  split; [reflexivity|].
  exact (match_literal_iff_equal ["what"; "is"] ["what"; "is"] eq_refl).
Defined.

End MatcherFacts.

(** ** The dispatcher *)

Section DispatchFacts.

Variable W : Type.
Variable matcher : list string -> list string -> option (list string).

(** The loop skips the entries that do not match and hands the captures
    to the action of the first entry that does; the entries behind it are
    never looked at. *)
Lemma search_pa_loop_first (pre post : list (Pattern * Action W))
      (pat : Pattern) (act : Action W) (src mat : list string) (w : W) :
  none_match matcher pre src ->
  matcher pat src = Some mat ->
  search_pa_loop matcher (pre ++ (pat, act) :: post) src w
  = (answer <- act mat ;; ret (or_no_answers answer)) w.
Proof.
  intros Hpre Hmat.
  induction pre as [|[p a] pre IH]; simpl.
  - rewrite Hmat. reflexivity.
  - rewrite (Hpre p a) by (left; reflexivity).
    apply IH. intros p' a' Hin. apply (Hpre p' a'). right. exact Hin.
Qed.

(** C5: when no pattern of the table matches the input, the dispatcher
    returns exactly the one-element list ["I don't understand"], as a
    value and not as a raised exception, and leaves the world as it was. *)
Theorem search_no_match_sentinel (tbl : list (Pattern * Action W))
        (src : list string) (w : W)
        (Hnone : none_match matcher tbl src) :
  search_pa_loop matcher tbl src w = (w, Ok ["I don't understand"]).
Proof.
  induction tbl as [|[p a] tbl IH]; simpl.
  - reflexivity.
  - rewrite (Hnone p a) by (left; reflexivity).
    apply IH. intros p' a' Hin. apply (Hnone p' a'). right. exact Hin.
Qed.

(** C4: when the action of the first matching entry returns a list, the
    dispatcher returns that list as it is if it is not empty, and the
    one-element list ["No answers"] if it is empty. *)
Theorem search_answer_or_no_answers (pre post : list (Pattern * Action W))
        (pat : Pattern) (act : Action W) (src mat answer : list string)
        (w w' : W)
        (Hpre : none_match matcher pre src)
        (Hmat : matcher pat src = Some mat)
        (Hact : act mat w = (w', Ok answer)) :
  (answer <> [] ->
   search_pa_loop matcher (pre ++ (pat, act) :: post) src w
   = (w', Ok answer))
  /\ (answer = [] ->
      search_pa_loop matcher (pre ++ (pat, act) :: post) src w
      = (w', Ok ["No answers"])).
Proof.
  rewrite (search_pa_loop_first pre post pat act src mat w Hpre Hmat).
  unfold bind, ret. rewrite Hact.
  split; intros H.
  - destruct answer; [contradiction|reflexivity].
  - subst answer. reflexivity.
Qed.

(** The exception an action raises leaves the dispatcher as it is. *)
Lemma search_pa_loop_raise (pre post : list (Pattern * Action W))
      (pat : Pattern) (act : Action W) (src mat : list string) (w w' : W)
      (e : exn) :
  none_match matcher pre src ->
  matcher pat src = Some mat ->
  act mat w = (w', Raise e) ->
  search_pa_loop matcher (pre ++ (pat, act) :: post) src w = (w', Raise e).
Proof.
  intros Hpre Hmat Hact.
  rewrite (search_pa_loop_first pre post pat act src mat w Hpre Hmat).
  unfold bind. rewrite Hact. reflexivity.
Qed.

(** Logging the actions does not change which patterns match. *)
Lemma none_match_log_table (tbl : list (Pattern * Action W))
      (src : list string) (i : nat) :
  none_match matcher tbl src ->
  forall pat act, In (pat, act) (log_table i tbl) -> matcher pat src = None.
Proof.
  revert i. induction tbl as [|[p a] tbl IH]; intros i Hnone pat act Hin.
  - destruct Hin.
  - simpl in Hin. destruct Hin as [E|Hin].
    + inversion E; subst. apply (Hnone pat a). left. reflexivity.
    + apply (IH (S i)) with (act := act); [|exact Hin].
      intros p' a' Hin'. apply (Hnone p' a'). right. exact Hin'.
Qed.

Lemma log_table_app (tbl1 tbl2 : list (Pattern * Action W)) (i : nat) :
  log_table i (tbl1 ++ tbl2)
  = log_table i tbl1 ++ log_table (i + List.length tbl1) tbl2.
Proof.
  revert i. induction tbl1 as [|[p a] tbl1 IH]; intros i; simpl.
  - rewrite Nat.add_0_r. reflexivity.
  - rewrite IH. do 3 f_equal. lia.
Qed.

End DispatchFacts.

(** C1: whatever the table and the input, when the patterns of several
    entries match, the dispatcher runs the action of the first of them in
    table order, on the captures of its pattern, and returns its result;
    the call log of the run holds the position of that entry and nothing
    else, so no later action is invoked. *)
Theorem search_first_match_only (W : Type)
        (matcher : list string -> list string -> option (list string))
        (pre post : list (Pattern * Action W)) (pat : Pattern)
        (act : Action W) (src mat : list string) (w : W)
        (Hpre : none_match matcher pre src)
        (Hmat : matcher pat src = Some mat) :
  search_pa_loop matcher (pre ++ (pat, act) :: post) src w
  = (answer <- act mat ;; ret (or_no_answers answer)) w
  /\ snd (fst (search_pa_loop matcher
                 (log_table 0 (pre ++ (pat, act) :: post)) src (w, [])))
     = [List.length pre].
Proof.
  split.
  - apply search_pa_loop_first; assumption.
  - rewrite log_table_app. simpl log_table.
    rewrite (search_pa_loop_first (W * list nat) matcher
               (log_table 0 pre) (log_table (S (List.length pre)) post)
               pat (logged (List.length pre) act) src mat (w, [])).
    + unfold bind, logged. simpl. destruct (act mat w) as [w' [answer|e]];
        reflexivity.
    + intros p a Hin.
      apply (none_match_log_table W matcher pre src 0 Hpre p a Hin).
    + exact Hmat.
Qed.

(** ** The lookup layer under the dispatcher *)

Section LookupFacts.

Variable W : Type.
Variable wikipedia_search : string -> M W (list string).
Variable WikipediaPage_html : string -> M W string.
Variable find_all_infobox : string -> list string.
Variable re_search : string -> string -> option Match.
Variable re_escape : string -> string.
Variable matcher : list string -> list string -> option (list string).

#[local] Abbreviation page_html :=
  (get_page_html wikipedia_search WikipediaPage_html).
#[local] Abbreviation box_text :=
  (infobox_text_of wikipedia_search WikipediaPage_html find_all_infobox).
#[local] Abbreviation the_table :=
  (pa_list wikipedia_search WikipediaPage_html find_all_infobox re_search
           re_escape).
#[local] Abbreviation search :=
  (search_pa_list wikipedia_search WikipediaPage_html find_all_infobox
                  re_search re_escape matcher).

(** The exception of the first step of a computation is the exception of
    the whole. *)
Lemma bind_raise (A B : Type) (c : M W A) (k : A -> M W B) (w w' : W)
      (e : exn) :
  c w = (w', Raise e) -> (x <- c ;; k x) w = (w', Raise e).
Proof. intros H. unfold bind. rewrite H. reflexivity. Qed.

Lemma bind_ok (A B : Type) (c : M W A) (k : A -> M W B) (w w' : W) (a : A) :
  c w = (w', Ok a) -> (x <- c ;; k x) w = k a w'.
Proof. intros H. unfold bind. rewrite H. reflexivity. Qed.

(** A page that cannot be fetched fails every step built on it. *)
Lemma box_text_page_raise (topic : string) (w w' : W) (e : exn) :
  page_html topic w = (w', Raise e) -> box_text topic w = (w', Raise e).
Proof. intros H. unfold infobox_text_of. apply bind_raise. exact H. Qed.

(** A fetched page without an infobox fails the text extraction. *)
Lemma box_text_no_infobox (topic html : string) (w w' : W) :
  page_html topic w = (w', Ok html) ->
  find_all_infobox html = [] ->
  box_text topic w = (w', Raise (LookupError "Page has no infobox")).
Proof.
  intros Hpage Hnone. unfold infobox_text_of.
  rewrite (bind_ok _ _ _ _ w w' html Hpage).
  apply bind_raise. unfold get_first_infobox_text. rewrite Hnone.
  reflexivity.
Qed.

(** The dispatcher on the table of the program, from the first matching
    entry. *)
Lemma search_pa_list_first (pre post : list (Pattern * Action W))
      (pat : Pattern) (act : Action W) (src mat : list string) (w : W) :
  the_table = pre ++ (pat, act) :: post ->
  none_match matcher pre src ->
  matcher pat src = Some mat ->
  search src w = (answer <- act mat ;; ret (or_no_answers answer)) w.
Proof.
  intros Htbl Hpre Hmat. unfold search_pa_list. rewrite Htbl.
  apply search_pa_loop_first; assumption.
Qed.

(** C6: when the action of the first matching entry raises a lookup
    failure, the dispatcher ends with that very exception: it is neither
    caught nor turned into the ["No answers"] list.  In the program the
    failures are the [IndexError] of a search without results (or whatever
    the page fetch raises) and the [AttributeError] that [get_match] raises
    when the field's expression finds nothing. *)
Theorem search_lookup_failure_propagates
        (pre post : list (Pattern * Action W)) (pat : Pattern)
        (act : Action W) (src mat : list string) (w w' : W) (e : exn)
        (Hpre : none_match matcher pre src)
        (Hmat : matcher pat src = Some mat)
        (Hact : act mat w = (w', Raise e)) :
  search_pa_loop matcher (pre ++ (pat, act) :: post) src w = (w', Raise e)
  /\ (forall w'' : W, search_pa_loop matcher (pre ++ (pat, act) :: post) src w
                  <> (w'', Ok ["No answers"]))
  /\ (forall (text pattern error_text : string) (v : W),
        re_search pattern text = None ->
        get_match re_search text pattern error_text v
        = (v, Raise (AttributeError error_text)))
  /\ (forall (title : string) (v v' : W),
        wikipedia_search title v = (v', Ok []) ->
        page_html title v
        = (v', Raise (IndexError "list index out of range")))
  /\ (forall (names : list string) (v v' : W) (e' : exn),
        page_html (join " " names) v = (v', Raise e') ->
        birth_date wikipedia_search WikipediaPage_html find_all_infobox
                   re_search names v = (v', Raise e'))
  /\ (forall (names : list string) (v v' : W) (text : string),
        box_text (join " " names) v = (v', Ok text) ->
        re_search "(?:Born\D*)(?P<birth>\d{4}-\d{2}-\d{2})" text = None ->
        birth_date wikipedia_search WikipediaPage_html find_all_infobox
                   re_search names v
        = (v', Raise (AttributeError
                        "Page infobox has no birth information (at least none in xxxx-xx-xx format)"))).
Proof.
  assert (Hrun := search_pa_loop_raise W matcher pre post pat act src mat
                    w w' e Hpre Hmat Hact).
  split; [exact Hrun|].
  split; [intros w''; rewrite Hrun; discriminate|].
  split.
  { intros text pattern error_text v Hre. unfold get_match.
    rewrite Hre. reflexivity. }
  split.
  { intros title v v' Hsearch. unfold get_page_html.
    rewrite (bind_ok _ _ _ _ v v' [] Hsearch). reflexivity. }
  split.
  { intros names v v' e' Hpage. unfold birth_date, get_birth_date.
    apply bind_raise. apply bind_raise. apply box_text_page_raise.
    exact Hpage. }
  intros names v v' text Hbox Hre.
  unfold birth_date, get_birth_date. apply bind_raise.
  rewrite (bind_ok _ _ _ _ v v' text Hbox).
  apply bind_raise. unfold get_match. rewrite Hre. reflexivity.
Qed.

(** C7: the action of the termination entry raises [KeyboardInterrupt],
    which leaves the dispatcher instead of an answer list.  The entry is
    the last of the table and is tried in that position: the input ends
    the session only when none of the five entries before it matches, and
    when one of them matches, its action decides the outcome. *)
Theorem bye_raises_in_table_order (src : list string) (w : W) :
  (forall dummy, @bye_action W dummy w = (w, Raise KeyboardInterrupt))
  /\ the_table = firstn 5 the_table ++ [(["bye"], bye_action)]
  /\ (forall mat,
        none_match matcher (firstn 5 the_table) src ->
        matcher ["bye"] src = Some mat ->
        search src w = (w, Raise KeyboardInterrupt))
  /\ (forall pre post pat act mat,
        firstn 5 the_table = pre ++ (pat, act) :: post ->
        none_match matcher pre src ->
        matcher pat src = Some mat ->
        search src w = (answer <- act mat ;; ret (or_no_answers answer)) w).
Proof.
  split; [reflexivity|].
  split; [reflexivity|].
  split.
  - intros mat Hnone Hbye.
    apply (search_pa_loop_raise W matcher (firstn 5 the_table) []
             ["bye"] bye_action src mat w w KeyboardInterrupt Hnone Hbye).
    reflexivity.
  - intros pre post pat act mat Hsplit Hpre Hmat.
    apply (search_pa_list_first pre (post ++ [(["bye"], bye_action)])
             pat act src mat w); [|exact Hpre|exact Hmat].
    change the_table with (firstn 5 the_table ++ [(["bye"], bye_action)]).
    rewrite Hsplit, <- app_assoc. reflexivity.
Qed.

(** C9: beside the failed search and the missing field there is a third
    failure: when the page of a topic is fetched but holds no infobox
    element, every field lookup raises [LookupError "Page has no infobox"],
    which is neither the [AttributeError] of a missing field nor the
    [IndexError] of a failed search; the action raises it in turn and it
    leaves the dispatcher uncaught. *)
Theorem no_infobox_raises_lookup_error (topic html : string) (w w' : W)
        (Hpage : page_html topic w = (w', Ok html))
        (Hnone : find_all_infobox html = []) :
  let e := LookupError "Page has no infobox" in
  let out : W * outcome string := (w', Raise e) in
  let outs : W * outcome (list string) := (w', Raise e) in
  get_first_infobox_text find_all_infobox html w' = out
  /\ (get_polar_radius wikipedia_search WikipediaPage_html find_all_infobox
                       re_search topic w = out
      /\ get_birth_date wikipedia_search WikipediaPage_html find_all_infobox
                        re_search topic w = out
      /\ get_address wikipedia_search WikipediaPage_html find_all_infobox
                     re_search topic w = out
      /\ get_elevation wikipedia_search WikipediaPage_html find_all_infobox
                       re_search topic w = out
      /\ forall runway,
           get_runway_length wikipedia_search WikipediaPage_html
                             find_all_infobox re_search re_escape
                             topic runway w = out)
  /\ ((forall msg, e <> AttributeError msg)
      /\ (forall msg, e <> IndexError msg)
      /\ (forall name msg, e <> OtherError name msg))
  /\ (forall (pre post : list (Pattern * Action W)) (pat : Pattern)
             (act : Action W) (src mat : list string),
        the_table = pre ++ (pat, act) :: post ->
        none_match matcher pre src ->
        matcher pat src = Some mat ->
        act mat w = outs ->
        search src w = outs)
  /\ (forall mat, join " " mat = topic ->
        birth_date wikipedia_search WikipediaPage_html find_all_infobox
                   re_search mat w = outs
        /\ address wikipedia_search WikipediaPage_html find_all_infobox
                   re_search mat w = outs
        /\ elevation wikipedia_search WikipediaPage_html find_all_infobox
                     re_search mat w = outs)
  /\ (forall mat, nth_error mat 0 = Some topic ->
        polar_radius wikipedia_search WikipediaPage_html find_all_infobox
                     re_search mat w = outs)
  /\ (forall mat runway,
        nth_error mat 1 = Some topic -> nth_error mat 0 = Some runway ->
        runway_length wikipedia_search WikipediaPage_html find_all_infobox
                      re_search re_escape mat w = outs).
Proof.
  intros e out outs.
  assert (Hbox := box_text_no_infobox topic html w w' Hpage Hnone).
  split.
  { unfold get_first_infobox_text. rewrite Hnone. reflexivity. }
  split.
  { repeat split; try intros runway;
      unfold get_polar_radius, get_birth_date, get_address, get_elevation,
        get_runway_length;
      apply bind_raise; exact Hbox. }
  split.
  { repeat split; intros; discriminate. }
  split.
  { intros pre post pat act src mat Htbl Hpre Hmat Hact.
    rewrite (search_pa_list_first pre post pat act src mat w Htbl Hpre Hmat).
    apply bind_raise. exact Hact. }
  split.
  { intros mat Hjoin. unfold birth_date, address, elevation.
    rewrite Hjoin.
    repeat split; apply bind_raise;
      unfold get_birth_date, get_address, get_elevation;
      apply bind_raise; exact Hbox. }
  split.
  { intros mat H0. unfold polar_radius, index. rewrite H0.
    unfold bind at 1. unfold ret at 1.
    apply bind_raise. unfold get_polar_radius. apply bind_raise.
    exact Hbox. }
  intros mat runway H1 H0. unfold runway_length, index. rewrite H1, H0.
  unfold bind at 1. unfold ret at 1. unfold bind at 1. unfold ret at 1.
  apply bind_raise. unfold get_runway_length. apply bind_raise. exact Hbox.
Qed.

End LookupFacts.

(** ** The dispatcher on the closed world *)

Module DemoFacts.
Import Demo.

(** The program's table with the actions of the closed world. *)
#[local] Abbreviation demo_table :=
  (pa_list wikipedia_search WikipediaPage_html find_all_infobox re_search
           re_escape).

Lemma search_first_match_only_witness :
  search_pa_loop Matcher.match_
    ((["when"; "was"; "%"; "born"], fun _ => ret ["first"])
       :: (["what"; "%"], fun mat => ret mat) :: demo_table)
    (query_tokens "What is the polar radius of Mars?") 0
  = (0, Ok ["is the polar radius of mars"])
  /\ snd (fst (search_pa_loop Matcher.match_
                 (log_table 0
                    ((["when"; "was"; "%"; "born"], fun _ => ret ["first"])
                       :: (["what"; "%"], fun mat => ret mat) :: demo_table))
                 (query_tokens "What is the polar radius of Mars?")
                 (0, [])))
     = [1].
Proof.
  apply (search_first_match_only World Matcher.match_
           [(["when"; "was"; "%"; "born"], fun _ => ret ["first"])]
           demo_table ["what"; "%"] (fun mat => ret mat)
           (query_tokens "What is the polar radius of Mars?")
           ["is the polar radius of mars"] 0).
  - intros pat act [E|[]]. inversion E. reflexivity.
  - reflexivity.
Defined.

Lemma search_no_match_sentinel_witness :
  search ["asdf"; "qwer"] 7 = (7, Ok ["I don't understand"]).
Proof.
  apply (search_no_match_sentinel World Matcher.match_ demo_table
           ["asdf"; "qwer"] 7).
  intros pat act Hin. unfold pa_list, In in Hin.
  repeat (destruct Hin as [E|Hin]; [inversion E; reflexivity|]).
  destruct Hin.
Defined.

Lemma search_answer_or_no_answers_witness :
  (["3376.2"] <> [] ->
   search (query_tokens "What is the polar radius of Mars?") 0
   = (2, Ok ["3376.2"]))
  /\ (@nil string = [] ->
      search_pa_loop Matcher.match_
        ((["bye"], bye_action) :: (["%"], fun _ => ret []) :: demo_table)
        ["when"; "was"; "ada"; "born"] 0
      = (0, Ok ["No answers"])).
Proof.
  split.
  - apply (search_answer_or_no_answers World Matcher.match_
             (firstn 1 demo_table) (skipn 2 demo_table)
             (split "what is the polar radius of %")
             (polar_radius wikipedia_search WikipediaPage_html
                           find_all_infobox re_search)
             (query_tokens "What is the polar radius of Mars?")
             ["mars"] ["3376.2"] 0 2).
    + intros pat act [E|[]]. inversion E. reflexivity.
    + reflexivity.
    + reflexivity.
  - apply (search_answer_or_no_answers World Matcher.match_
             [(["bye"], bye_action)] demo_table ["%"] (fun _ => ret [])
             ["when"; "was"; "ada"; "born"] ["when was ada born"] [] 0 0).
    + intros pat act [E|[]]. inversion E. reflexivity.
    + reflexivity.
    + reflexivity.
Defined.

Lemma search_lookup_failure_propagates_witness :
  search (query_tokens "What is the elevation of Mars?") 0
  = (2, Raise (AttributeError "Page infobox has no elevation information"))
  /\ search (query_tokens "when was nowhere born?") 0
     = (1, Raise (IndexError "list index out of range")).
Proof.
  split.
  - apply (search_lookup_failure_propagates World wikipedia_search
             WikipediaPage_html find_all_infobox re_search Matcher.match_
             (firstn 3 demo_table) (skipn 4 demo_table)
             (split "what is the elevation of %")
             (elevation wikipedia_search WikipediaPage_html
                        find_all_infobox re_search)
             (query_tokens "What is the elevation of Mars?") ["mars"] 0 2
             (AttributeError "Page infobox has no elevation information")).
    + intros pat act Hin. unfold pa_list, firstn, In in Hin.
      repeat (destruct Hin as [E|Hin]; [inversion E; reflexivity|]).
      destruct Hin.
    + reflexivity.
    + reflexivity.
  - apply (search_lookup_failure_propagates World wikipedia_search
             WikipediaPage_html find_all_infobox re_search Matcher.match_
             [] (skipn 1 demo_table)
             (split "when was % born")
             (birth_date wikipedia_search WikipediaPage_html
                         find_all_infobox re_search)
             (query_tokens "when was nowhere born?") ["nowhere"] 0 1
             (IndexError "list index out of range")).
    + intros pat act [].
    + reflexivity.
    + reflexivity.
Defined.

Lemma bye_raises_in_table_order_witness :
  search ["bye"] 3 = (3, Raise KeyboardInterrupt)
  /\ search_pa_list wikipedia_search WikipediaPage_html find_all_infobox
       re_search re_escape (fun _ _ => Some ["venus"]) ["bye"] 3
     = (5, Raise (LookupError "Page has no infobox")).
Proof.
  split.
  - destruct (bye_raises_in_table_order World wikipedia_search
                WikipediaPage_html find_all_infobox re_search re_escape
                Matcher.match_ ["bye"] 3) as (_ & _ & Hbye & _).
    apply (Hbye []); [|reflexivity].
    intros pat act Hin. unfold pa_list, firstn, In in Hin.
    repeat (destruct Hin as [E|Hin]; [inversion E; reflexivity|]).
    destruct Hin.
  - destruct (bye_raises_in_table_order World wikipedia_search
                WikipediaPage_html find_all_infobox re_search re_escape
                (fun _ _ => Some ["venus"]) ["bye"] 3)
      as (_ & _ & _ & Hearlier).
    rewrite (Hearlier [] (skipn 1 (firstn 5 demo_table))
               (split "when was % born")
               (birth_date wikipedia_search WikipediaPage_html
                           find_all_infobox re_search)
               ["venus"]).
    + reflexivity.
    + reflexivity.
    + intros pat act [].
    + reflexivity.
Defined.

Lemma no_infobox_raises_lookup_error_witness :
  get_birth_date wikipedia_search WikipediaPage_html find_all_infobox
                 re_search "venus" 0
  = (2, Raise (LookupError "Page has no infobox"))
  /\ search (query_tokens "When was Venus born?") 0
     = (2, Raise (LookupError "Page has no infobox")).
Proof.
  destruct (no_infobox_raises_lookup_error World wikipedia_search
              WikipediaPage_html find_all_infobox re_search re_escape
              Matcher.match_ "venus" "venus" 0 2 eq_refl eq_refl)
    as (_ & (_ & Hbirth & _) & _ & Hsearch & Hact & _).
  split; [exact Hbirth|].
  apply (Hsearch [] (skipn 1 demo_table) (split "when was % born")
           (birth_date wikipedia_search WikipediaPage_html
                       find_all_infobox re_search)
           (query_tokens "When was Venus born?") ["venus"]).
  - reflexivity.
  - intros pat act [].
  - reflexivity.
  - apply (Hact ["venus"]). reflexivity.
Defined.

End DemoFacts.

(** ** Text clean-up *)

Module CleanTextFacts.

Lemma all_chars_map_keep (t : string) :
  all_chars (fun c => char_in c printable) (map_chars ascii_or_space t)
  = true.
Proof.
  induction t as [|a t IH]; [reflexivity|].
  cbn [map_chars all_chars]. rewrite IH, andb_true_r.
  unfold ascii_or_space.
  destruct (char_in a printable) eqn:E; [exact E|reflexivity].
Qed.

Lemma map_keep_fixed (s : string) :
  all_chars (fun c => char_in c printable) s = true ->
  map_chars ascii_or_space s = s.
Proof.
  induction s as [|a s IH]; [reflexivity|].
  cbn [map_chars all_chars].
  intros H. apply andb_true_iff in H. destruct H as [Ha Hs].
  unfold ascii_or_space at 1. rewrite Ha, (IH Hs). reflexivity.
Qed.

(** Squeezing the runs of [c] keeps the first character. *)
Lemma sub_runs_head (c a : ascii) (s : string) :
  exists r, sub_runs c (String a s) = String a r.
Proof.
  revert a. induction s as [|b s IH]; intros a.
  - exists EmptyString. reflexivity.
  - simpl. destruct (Ascii.eqb a c && Ascii.eqb b c) eqn:E.
    + apply andb_true_iff in E. destruct E as [Ea Eb].
      apply Ascii.eqb_eq in Ea, Eb. subst a b. apply IH.
    + eexists. reflexivity.
Qed.

Lemma sub_runs_all_chars (p : ascii -> bool) (c : ascii) (s : string) :
  all_chars p s = true -> all_chars p (sub_runs c s) = true.
Proof.
  induction s as [|a s IH]; [reflexivity|].
  intros H. simpl in H. apply andb_true_iff in H. destruct H as [Ha Hs].
  destruct s as [|b s]; [simpl; rewrite Ha; reflexivity|].
  change (sub_runs c (String a (String b s)))
    with (if Ascii.eqb a c && Ascii.eqb b c then sub_runs c (String b s)
          else String a (sub_runs c (String b s))).
  destruct (Ascii.eqb a c && Ascii.eqb b c).
  - apply IH. exact Hs.
  - change (p a && all_chars p (sub_runs c (String b s)) = true).
    rewrite Ha, (IH Hs). reflexivity.
Qed.

(** Squeezing the runs of [c] leaves no doubled [d] that was not there. *)
Lemma sub_runs_keeps_no_double (c d : ascii) (s : string) :
  no_double d s = true -> no_double d (sub_runs c s) = true.
Proof.
  induction s as [|a s IH]; [reflexivity|].
  destruct s as [|b s]; [reflexivity|].
  intros H.
  change (negb (Ascii.eqb a d && Ascii.eqb b d)
          && no_double d (String b s) = true) in H.
  apply andb_true_iff in H. destruct H as [Hab Hs].
  change (sub_runs c (String a (String b s)))
    with (if Ascii.eqb a c && Ascii.eqb b c then sub_runs c (String b s)
          else String a (sub_runs c (String b s))).
  destruct (Ascii.eqb a c && Ascii.eqb b c).
  - apply IH. exact Hs.
  - specialize (IH Hs).
    destruct (sub_runs_head c b s) as [r Hr]. rewrite Hr in *.
    change (negb (Ascii.eqb a d && Ascii.eqb b d)
            && no_double d (String b r) = true).
    rewrite Hab, IH. reflexivity.
Qed.

(** Squeezing the runs of [c] leaves no doubled [c]. *)
Lemma sub_runs_no_double (c : ascii) (s : string) :
  no_double c (sub_runs c s) = true.
Proof.
  induction s as [|a s IH]; [reflexivity|].
  destruct s as [|b s]; [reflexivity|].
  change (sub_runs c (String a (String b s)))
    with (if Ascii.eqb a c && Ascii.eqb b c then sub_runs c (String b s)
          else String a (sub_runs c (String b s))).
  destruct (Ascii.eqb a c && Ascii.eqb b c) eqn:E.
  - exact IH.
  - destruct (sub_runs_head c b s) as [r Hr]. rewrite Hr in *.
    change (negb (Ascii.eqb a c && Ascii.eqb b c)
            && no_double c (String b r) = true).
    rewrite E, IH. reflexivity.
Qed.

(** A text without a doubled [c] has no run to squeeze. *)
Lemma sub_runs_fixed (c : ascii) (s : string) :
  no_double c s = true -> sub_runs c s = s.
Proof.
  induction s as [|a s IH]; [reflexivity|].
  destruct s as [|b s]; [reflexivity|].
  intros H.
  change (negb (Ascii.eqb a c && Ascii.eqb b c)
          && no_double c (String b s) = true) in H.
  apply andb_true_iff in H. destruct H as [Hab Hs].
  change (sub_runs c (String a (String b s)))
    with (if Ascii.eqb a c && Ascii.eqb b c then sub_runs c (String b s)
          else String a (sub_runs c (String b s))).
  apply negb_true_iff in Hab. rewrite Hab, (IH Hs). reflexivity.
Qed.

Lemma all_chars_impl (p q : ascii -> bool) (s : string) :
  (forall c, p c = true -> q c = true) ->
  all_chars p s = true -> all_chars q s = true.
Proof.
  intros Hpq. induction s as [|a s IH]; simpl; [reflexivity|].
  intros H. apply andb_true_iff in H. destruct H as [Ha Hs].
  rewrite (Hpq a Ha), (IH Hs). reflexivity.
Qed.

(** The members of [string.printable] are the code points 32 to 126 and
    the five control characters 9 to 13. *)
Lemma printable_codes (c : ascii) :
  char_in c printable
  = ((32 <=? nat_of_ascii c) && (nat_of_ascii c <=? 126)
     || (9 <=? nat_of_ascii c) && (nat_of_ascii c <=? 13))%nat.
Proof.
  destruct c as [[] [] [] [] [] [] [] []]; vm_compute; reflexivity.
Qed.

(** C10: [clean_text] is idempotent, and its result holds only members of
    [string.printable] (code points 32 to 126 and 9 to 13), without two
    spaces in a row and without two line feeds in a row. *)
Theorem clean_text_idempotent (t : string) :
  clean_text (clean_text t) = clean_text t
  /\ all_chars (fun c => char_in c printable) (clean_text t) = true
  /\ all_chars (fun c =>
                  ((32 <=? nat_of_ascii c) && (nat_of_ascii c <=? 126)
                   || (9 <=? nat_of_ascii c) && (nat_of_ascii c <=? 13))%nat)
               (clean_text t) = true
  /\ no_double " "%char (clean_text t) = true
  /\ no_double LF (clean_text t) = true.
Proof.
  assert (Hp : all_chars (fun c => char_in c printable) (clean_text t) = true).
  { unfold clean_text. do 2 apply sub_runs_all_chars.
    apply all_chars_map_keep. }
  assert (Hs : no_double " "%char (clean_text t) = true).
  { unfold clean_text. apply sub_runs_keeps_no_double.
    apply sub_runs_no_double. }
  assert (Hn : no_double LF (clean_text t) = true).
  { unfold clean_text. apply sub_runs_no_double. }
  split; [|split; [exact Hp|split; [|split; [exact Hs|exact Hn]]]].
  - unfold clean_text at 1.
    rewrite (map_keep_fixed _ Hp), (sub_runs_fixed _ _ Hs).
    apply sub_runs_fixed. exact Hn.
  - revert Hp. apply all_chars_impl. intros c Hc.
    rewrite <- printable_codes. exact Hc.
Qed.

End CleanTextFacts.

(** ** Tokenizing a query line *)

Module TokenFacts.

Lemma all_chars_app (p : ascii -> bool) (s1 s2 : string) :
  all_chars p (s1 ++ s2) = all_chars p s1 && all_chars p s2.
Proof.
  induction s1 as [|a s1 IH]; simpl; [reflexivity|].
  rewrite IH, andb_assoc. reflexivity.
Qed.

(** The tokens are made of the characters of the text that are not
    whitespace. *)
Lemma split_from_all_chars (p : ascii -> bool) (text cur : string) :
  all_chars p cur = true ->
  all_chars (fun c => isspace c || p c) text = true ->
  forall tok, In tok (split_from cur text) -> all_chars p tok = true.
Proof.
  revert cur. induction text as [|a text IH]; intros cur Hcur Htext tok Hin.
  - simpl in Hin. destruct cur; [destruct Hin|].
    destruct Hin as [<-|[]]. exact Hcur.
  - cbn [all_chars] in Htext. apply andb_true_iff in Htext.
    destruct Htext as [Ha Htext].
    cbn [split_from] in Hin. destruct (isspace a) eqn:Ea.
    + destruct cur.
      * apply (IH EmptyString); [reflexivity|exact Htext|exact Hin].
      * destruct Hin as [<-|Hin]; [exact Hcur|].
        apply (IH EmptyString); [reflexivity|exact Htext|exact Hin].
    + apply (IH (cur ++ String a EmptyString)%string); [|exact Htext|exact Hin].
      rewrite all_chars_app, Hcur. cbn [all_chars].
      simpl in Ha. rewrite Ha. reflexivity.
Qed.

(** No token is empty. *)
Lemma split_from_nonempty (text cur tok : string) :
  In tok (split_from cur text) -> tok <> EmptyString.
Proof.
  revert cur. induction text as [|a text IH]; intros cur Hin.
  - simpl in Hin. destruct cur; [destruct Hin|].
    destruct Hin as [<-|[]]. discriminate.
  - cbn [split_from] in Hin. destruct (isspace a).
    + destruct cur; [exact (IH _ Hin)|].
      destruct Hin as [<-|Hin]; [discriminate|exact (IH _ Hin)].
    + exact (IH _ Hin).
Qed.

(** Lower case of a character that is no query mark is no query mark, and
    is lower case for good. *)
Lemma lower_char_token (c : ascii) :
  Ascii.eqb c "?"%char = false ->
  negb (Ascii.eqb (lower_char c) "?"%char)
  && Ascii.eqb (lower_char (lower_char c)) (lower_char c) = true.
Proof.
  destruct c as [[] [] [] [] [] [] [] []]; vm_compute; intros H;
    (reflexivity || discriminate H).
Qed.

Lemma lower_replace_chars (line : string) :
  all_chars (fun c => isspace c || token_char c)
            (lower (replace "?"%char "" line)) = true.
Proof.
  induction line as [|a line IH]; [reflexivity|].
  cbn [replace]. destruct (Ascii.eqb a "?"%char) eqn:Ea.
  - exact IH.
  - unfold lower in *. cbn [map_chars all_chars]. rewrite IH, andb_true_r.
    unfold token_char.
    assert (H := lower_char_token a Ea).
    destruct (isspace (lower_char a)); [reflexivity|exact H].
Qed.

Lemma string_app_assoc (s1 s2 s3 : string) :
  ((s1 ++ s2) ++ s3 = s1 ++ (s2 ++ s3))%string.
Proof.
  induction s1 as [|a s1 IH]; simpl; [reflexivity|].
  rewrite IH. reflexivity.
Qed.

Lemma replace_app (old : ascii) (new s1 s2 : string) :
  replace old new (s1 ++ s2)
  = (replace old new s1 ++ replace old new s2)%string.
Proof.
  induction s1 as [|a s1 IH]; simpl; [reflexivity|].
  rewrite IH. destruct (Ascii.eqb a old); [|reflexivity].
  rewrite string_app_assoc. reflexivity.
Qed.

(** A query mark in the middle of the line is deleted too, where stripping
    only a trailing mark would keep it in its token. *)
Lemma query_tokens_inner_mark_deleted :
  query_tokens "who? me?" = ["who"; "me"]
  /\ query_tokens_trailing_only "who? me?" = ["who?"; "me"]
  /\ ~ (forall line, query_tokens line = query_tokens_trailing_only line).
Proof.
  split; [reflexivity|]. split; [reflexivity|].
  intros H. specialize (H "who? me?"). vm_compute in H. discriminate H.
Qed.

(** Deleting the query marks is keeping the other characters. *)
Lemma replace_mark_filter (s : string) :
  replace "?"%char "" s
  = filter_chars (fun c => negb (Ascii.eqb c "?"%char)) s.
Proof.
  induction s as [|a s IH]; [reflexivity|].
  cbn [replace filter_chars]. destruct (Ascii.eqb a "?"%char); cbn [negb].
  - exact IH.
  - rewrite IH. reflexivity.
Qed.

Lemma map_chars_app (f : ascii -> ascii) (s1 s2 : string) :
  map_chars f (s1 ++ s2) = (map_chars f s1 ++ map_chars f s2)%string.
Proof.
  induction s1 as [|a s1 IH]; simpl; [reflexivity|].
  rewrite IH. reflexivity.
Qed.

Lemma append_empty_r (s : string) : (s ++ "")%string = s.
Proof.
  induction s as [|a s IH]; simpl; [reflexivity|]. rewrite IH. reflexivity.
Qed.

(** Lower case keeps whitespace whitespace and the rest the rest, and a
    whitespace is no query mark. *)
Lemma isspace_lower_char (c : ascii) :
  isspace (lower_char c) = isspace c
  /\ (isspace c = true -> Ascii.eqb c "?"%char = false).
Proof.
  destruct c as [[] [] [] [] [] [] [] []]; vm_compute; split;
    (reflexivity || discriminate).
Qed.

(** A whitespace closes the token at hand and the rest is split afresh. *)
Lemma split_from_at_space (a b cur : string) (c : ascii) :
  isspace c = true ->
  split_from cur (a ++ String c b)
  = (split_from cur a ++ split_from EmptyString b)%list.
Proof.
  intros Hc. revert cur. induction a as [|x a IH]; intros cur.
  - cbn [append split_from]. rewrite Hc. destruct cur; reflexivity.
  - cbn [append split_from]. destruct (isspace x).
    + destruct cur; [apply IH|]. rewrite IH. reflexivity.
    + apply IH.
Qed.

(** A text without whitespace is one token, or none when it is empty. *)
Lemma split_from_word (t cur : string) :
  all_chars (fun c => negb (isspace c)) t = true ->
  split_from cur t
  = match (cur ++ t)%string with
    | EmptyString => []
    | String _ _ => [(cur ++ t)%string]
    end.
Proof.
  revert cur. induction t as [|a t IH]; intros cur Ht.
  - rewrite append_empty_r. destruct cur; reflexivity.
  - cbn [all_chars] in Ht. apply andb_true_iff in Ht.
    destruct Ht as [Ha Ht]. apply negb_true_iff in Ha.
    cbn [split_from]. rewrite Ha, (IH _ Ht), string_app_assoc.
    reflexivity.
Qed.

Lemma concat_empty_sep_cons (x : string) (xs : list string) :
  concat "" (x :: xs) = (x ++ concat "" xs)%string.
Proof.
  destruct xs as [|y xs]; [|reflexivity].
  cbn [concat]. rewrite append_empty_r. reflexivity.
Qed.

(** The tokens hold, in order, every character that is no whitespace. *)
Lemma split_from_concat (s cur : string) :
  concat "" (split_from cur s)
  = (cur ++ filter_chars (fun c => negb (isspace c)) s)%string.
Proof.
  revert cur. induction s as [|a s IH]; intros cur.
  - cbn [split_from filter_chars]. rewrite append_empty_r.
    destruct cur; reflexivity.
  - cbn [split_from filter_chars]. destruct (isspace a); cbn [negb].
    + destruct cur; [apply IH|].
      rewrite concat_empty_sep_cons, IH. reflexivity.
    + rewrite IH, string_app_assoc. reflexivity.
Qed.

Lemma all_chars_filter (p q : ascii -> bool) (s : string) :
  all_chars p s = true -> all_chars p (filter_chars q s) = true.
Proof.
  induction s as [|a s IH]; [reflexivity|].
  cbn [all_chars filter_chars]. intros H. apply andb_true_iff in H.
  destruct H as [Ha Hs]. destruct (q a); [|exact (IH Hs)].
  cbn [all_chars]. rewrite Ha, (IH Hs). reflexivity.
Qed.

Lemma all_chars_lower_not_space (s : string) :
  all_chars (fun c => negb (isspace c)) s = true ->
  all_chars (fun c => negb (isspace c)) (lower s) = true.
Proof.
  unfold lower. induction s as [|a s IH]; [reflexivity|].
  cbn [all_chars map_chars]. intros H. apply andb_true_iff in H.
  destruct H as [Ha Hs].
  destruct (isspace_lower_char a) as [-> _]. rewrite Ha, (IH Hs).
  reflexivity.
Qed.

(** A character that [lower] leaves alone is no capital letter. *)
Lemma token_char_not_capital (c : ascii) :
  token_char c = true -> negb (char_in c ascii_uppercase) = true.
Proof.
  destruct c as [[] [] [] [] [] [] [] []]; vm_compute; intros H;
    (reflexivity || discriminate H).
Qed.

(** C8, amended: the tokens handed to the dispatcher are those of the
    line with EVERY query mark deleted, wherever it stands, put in lower
    case and split on whitespace.  No token holds a query mark, whitespace
    or a capital letter, and none is empty; a mark at the end of the line
    is deleted like any other.  The tokens are the words of the line: a
    whitespace anywhere in the line separates the tokens before it from
    the tokens after it; a line without whitespace gives its characters
    other than query marks, in lower case, as one token (none when nothing
    is left); and the tokens together hold, in order, exactly the
    characters of the line that are neither query mark nor whitespace, in
    lower case. *)
Theorem query_tokens_delete_every_mark (line : string) :
  (forall tok, In tok (query_tokens line) ->
     all_chars token_char tok = true
     /\ char_in "?"%char tok = false
     /\ lower tok = tok
     /\ tok <> EmptyString)
  /\ (forall before after : string,
        line = (before ++ "?" ++ after)%string ->
        query_tokens line = query_tokens (before ++ after))
  /\ query_tokens (line ++ "?") = query_tokens line
  /\ (forall (before after : string) (c : ascii),
        line = (before ++ String c after)%string ->
        isspace c = true ->
        query_tokens line
        = (query_tokens before ++ query_tokens after)%list)
  /\ (all_chars (fun c => negb (isspace c)) line = true ->
      query_tokens line
      = match lower (filter_chars
                       (fun c => negb (Ascii.eqb c "?"%char)) line) with
        | EmptyString => []
        | String a word => [String a word]
        end)
  /\ concat "" (query_tokens line)
     = filter_chars (fun c => negb (isspace c))
         (lower (filter_chars (fun c => negb (Ascii.eqb c "?"%char)) line))
  /\ (forall tok, In tok (query_tokens line) ->
        all_chars (fun c => negb (char_in c ascii_uppercase)) tok = true).
Proof.
  assert (Hdel : forall before after : string,
             query_tokens (before ++ "?" ++ after)
             = query_tokens (before ++ after)).
  { intros before after. unfold query_tokens.
    rewrite !replace_app. reflexivity. }
  split; [|split; [|split; [|split; [|split; [|split]]]]].
  - intros tok Hin.
    assert (Hall : all_chars token_char tok = true).
    { apply (split_from_all_chars token_char
               (lower (replace "?"%char "" line)) EmptyString);
        [reflexivity|apply lower_replace_chars|exact Hin]. }
    split; [exact Hall|].
    split; [|split].
    + clear Hin. induction tok as [|a tok IH]; [reflexivity|].
      cbn [all_chars] in Hall. apply andb_true_iff in Hall.
      destruct Hall as [Ha Hall]. cbn [char_in]. rewrite (IH Hall).
      unfold token_char in Ha.
      apply andb_true_iff in Ha. destruct Ha as [Ha _].
      apply andb_true_iff in Ha. destruct Ha as [_ Ha].
      apply negb_true_iff in Ha. rewrite Ascii.eqb_sym, Ha. reflexivity.
    + clear Hin. unfold lower.
      induction tok as [|a tok IH]; [reflexivity|].
      cbn [all_chars] in Hall. apply andb_true_iff in Hall.
      destruct Hall as [Ha Hall]. cbn [map_chars]. rewrite (IH Hall).
      unfold token_char in Ha.
      apply andb_true_iff in Ha. destruct Ha as [_ Ha].
      apply Ascii.eqb_eq in Ha. rewrite Ha. reflexivity.
    + exact (split_from_nonempty _ _ _ Hin).
  - intros before after ->. apply Hdel.
  - unfold query_tokens. rewrite replace_app. cbn [replace Ascii.eqb].
    assert (E : forall s : string, (s ++ "")%string = s).
    { induction s as [|a s IH]; simpl; [reflexivity|rewrite IH; reflexivity]. }
    simpl. rewrite E. reflexivity.
  - intros before after c -> Hc. unfold query_tokens, split, lower.
    destruct (isspace_lower_char c) as [Hl Hq].
    rewrite replace_app. cbn [replace]. rewrite (Hq Hc).
    rewrite map_chars_app. cbn [map_chars].
    apply split_from_at_space. rewrite Hl. exact Hc.
  - intros Hline. unfold query_tokens, split.
    rewrite replace_mark_filter.
    rewrite (split_from_word _ EmptyString).
    + cbn [append].
      destruct (lower (filter_chars
                         (fun c => negb (Ascii.eqb c "?"%char)) line));
        reflexivity.
    + apply all_chars_lower_not_space. apply all_chars_filter.
      exact Hline.
  - unfold query_tokens, split.
    rewrite split_from_concat, replace_mark_filter. reflexivity.
  - intros tok Hin.
    apply (CleanTextFacts.all_chars_impl token_char);
      [exact token_char_not_capital|].
    apply (split_from_all_chars token_char
             (lower (replace "?"%char "" line)) EmptyString);
      [reflexivity|apply lower_replace_chars|exact Hin].
Qed.

Lemma query_tokens_delete_every_mark_witness :
  (all_chars token_char "who" = true
   /\ char_in "?"%char "who" = false
   /\ lower "who" = "who"
   /\ "who" <> EmptyString)
  /\ query_tokens "Who? me?" = (query_tokens "Who?" ++ query_tokens "me?")%list
  /\ query_tokens "Who?" = ["who"].
Proof.
  split; [|split].
  - destruct (query_tokens_delete_every_mark "Who? me?") as [Htok _].
    apply Htok. left. reflexivity.
  - destruct (query_tokens_delete_every_mark "Who? me?")
      as (_ & _ & _ & Hsep & _).
    apply (Hsep "Who?" "me?" " "%char); reflexivity.
  - destruct (query_tokens_delete_every_mark "Who?")
      as (_ & _ & _ & _ & Hword & _).
    apply Hword. reflexivity.
Defined.

End TokenFacts.

(** * Further properties of the program *)

(** ** The dispatcher, on any table *)

Section DispatchMore.

Variable W : Type.
Variable matcher : list string -> list string -> option (list string).

(** The pattern of an entry matches [src]. *)
#[local] Abbreviation matches_entry src :=
  (fun entry : Pattern * Action W =>
     match matcher (fst entry) src with
     | Some _ => true
     | None => false
     end).

(** The dispatcher never hands back an empty list: what it returns holds
    at least one line to print. *)
Theorem search_answer_never_empty (tbl : list (Pattern * Action W))
        (src ans : list string) (w w' : W)
        (Hrun : search_pa_loop matcher tbl src w = (w', Ok ans)) :
  ans <> [].
Proof.
  induction tbl as [|[pat act] tbl IH]; simpl in Hrun.
  - inversion Hrun. discriminate.
  - destruct (matcher pat src) as [mat|]; [|exact (IH Hrun)].
    unfold bind, ret in Hrun.
    destruct (act mat w) as [w1 [answer|e]]; [|discriminate].
    inversion Hrun. destruct answer; discriminate.
Qed.

(** A table either matches nowhere or splits at its first match. *)
Lemma search_pa_loop_split (tbl : list (Pattern * Action W))
      (src : list string) (w : W) :
  (none_match matcher tbl src
   /\ search_pa_loop matcher tbl src w = (w, Ok ["I don't understand"]))
  \/ (exists pre pat act post mat,
        tbl = pre ++ (pat, act) :: post
        /\ none_match matcher pre src
        /\ matcher pat src = Some mat
        /\ search_pa_loop matcher tbl src w
           = (answer <- act mat ;; ret (or_no_answers answer)) w).
Proof.
  induction tbl as [|[pat act] tbl IH].
  - left. split; [intros p a []|reflexivity].
  - destruct (matcher pat src) as [mat|] eqn:Hmat.
    + right. exists [], pat, act, tbl, mat.
      split; [reflexivity|]. split; [intros p a []|].
      split; [exact Hmat|]. simpl. rewrite Hmat. reflexivity.
    + destruct IH as [[Hnone Hrun]|(pre & p & a & post & mat & E & Hpre
                                      & Hp & Hrun)].
      * left. split.
        -- intros p a [Ein|Hin]; [inversion Ein; subst; exact Hmat|].
           exact (Hnone p a Hin).
        -- simpl. rewrite Hmat. exact Hrun.
      * right. exists ((pat, act) :: pre), p, a, post, mat.
        split; [rewrite E; reflexivity|].
        split.
        -- intros p' a' [Ein|Hin]; [inversion Ein; subst; exact Hmat|].
           exact (Hpre p' a' Hin).
        -- split; [exact Hp|]. simpl. rewrite Hmat. exact Hrun.
Qed.

(** Every run of the dispatcher is one of two: no pattern matches and the
    sentinel comes back with the world untouched, or the table splits at
    its first matching entry, whose action, run on its captures, decides
    world and outcome. *)
Theorem search_pa_loop_cases (tbl : list (Pattern * Action W))
        (src : list string) (w : W) :
  (none_match matcher tbl src
   /\ search_pa_loop matcher tbl src w = (w, Ok ["I don't understand"]))
  \/ (exists pre pat act post mat,
        tbl = pre ++ (pat, act) :: post
        /\ none_match matcher pre src
        /\ matcher pat src = Some mat
        /\ search_pa_loop matcher tbl src w
           = (answer <- act mat ;; ret (or_no_answers answer)) w).
Proof. exact (search_pa_loop_split tbl src w). Qed.

(** Entries whose pattern does not match count for nothing: striking them
    from the table, wherever they stand, leaves the run as it is. *)
Theorem search_pa_loop_matching_only (tbl : list (Pattern * Action W))
        (src : list string) (w : W) :
  search_pa_loop matcher (filter (matches_entry src) tbl) src w
  = search_pa_loop matcher tbl src w.
Proof.
  induction tbl as [|[pat act] tbl IH]; [reflexivity|].
  simpl. destruct (matcher pat src) as [mat|] eqn:Hmat.
  - simpl. rewrite Hmat. reflexivity.
  - exact IH.
Qed.

End DispatchMore.

(** ** Text clean-up, further *)

Module CleanTextMore.
Import CleanTextFacts.

(** Neither a space nor a line feed. *)
#[local] Abbreviation not_blank :=
  (fun c : ascii => negb (Ascii.eqb c " "%char) && negb (Ascii.eqb c LF)).

(** The three marks of a clean text. *)
Lemma clean_text_clean (t : string) :
  all_chars (fun c => char_in c printable) (clean_text t) = true
  /\ no_double " "%char (clean_text t) = true
  /\ no_double LF (clean_text t) = true.
Proof.
  unfold clean_text. split; [|split].
  - do 2 apply sub_runs_all_chars. apply all_chars_map_keep.
  - apply sub_runs_keeps_no_double. apply sub_runs_no_double.
  - apply sub_runs_no_double.
Qed.

Lemma clean_text_fixed_of_clean (t : string) :
  all_chars (fun c => char_in c printable) t = true ->
  no_double " "%char t = true ->
  no_double LF t = true ->
  clean_text t = t.
Proof.
  intros Hp Hs Hn. unfold clean_text.
  rewrite (map_keep_fixed _ Hp), (sub_runs_fixed _ _ Hs).
  apply sub_runs_fixed. exact Hn.
Qed.

(** A text cleaned once is cleaned for good. *)
Lemma clean_text_twice (t : string) : clean_text (clean_text t) = clean_text t.
Proof.
  destruct (clean_text_clean t) as (Hp & Hs & Hn).
  apply clean_text_fixed_of_clean; assumption.
Qed.

Lemma map_chars_length (f : ascii -> ascii) (s : string) :
  String.length (map_chars f s) = String.length s.
Proof.
  induction s as [|a s IH]; simpl; [reflexivity|]. rewrite IH. reflexivity.
Qed.

Lemma sub_runs_length (c : ascii) (s : string) :
  String.length (sub_runs c s) <= String.length s.
Proof.
  induction s as [|a s IH]; [apply le_n|].
  destruct s as [|b s]; [apply le_n|].
  change (sub_runs c (String a (String b s)))
    with (if Ascii.eqb a c && Ascii.eqb b c then sub_runs c (String b s)
          else String a (sub_runs c (String b s))).
  destruct (Ascii.eqb a c && Ascii.eqb b c).
  - change (String.length (String a (String b s)))
      with (S (String.length (String b s))). lia.
  - change (S (String.length (sub_runs c (String b s)))
            <= S (String.length (String b s))). lia.
Qed.

Lemma sub_runs_filter (p : ascii -> bool) (c : ascii) (s : string) :
  p c = false -> filter_chars p (sub_runs c s) = filter_chars p s.
Proof.
  intros Hc. induction s as [|a s IH]; [reflexivity|].
  destruct s as [|b s]; [reflexivity|].
  change (sub_runs c (String a (String b s)))
    with (if Ascii.eqb a c && Ascii.eqb b c then sub_runs c (String b s)
          else String a (sub_runs c (String b s))).
  destruct (Ascii.eqb a c && Ascii.eqb b c) eqn:E.
  - apply andb_true_iff in E. destruct E as [Ea _].
    apply Ascii.eqb_eq in Ea. subst a.
    rewrite IH. cbn [filter_chars]. rewrite Hc. reflexivity.
  - change (filter_chars p (String a (sub_runs c (String b s))))
      with (if p a then String a (filter_chars p (sub_runs c (String b s)))
            else filter_chars p (sub_runs c (String b s))).
    rewrite IH. reflexivity.
Qed.

(** The texts that [clean_text] leaves alone are exactly those made of
    members of [string.printable] with no two spaces and no two line feeds
    in a row. *)
Theorem clean_text_fixed_points (t : string) :
  clean_text t = t
  <-> (all_chars (fun c => char_in c printable) t = true
       /\ no_double " "%char t = true
       /\ no_double LF t = true).
Proof.
  split.
  - intros E. rewrite <- E. apply clean_text_clean.
  - intros (Hp & Hs & Hn). apply clean_text_fixed_of_clean; assumption.
Qed.

(** [clean_text] never makes a text longer. *)
Theorem clean_text_not_longer (t : string) :
  String.length (clean_text t) <= String.length t.
Proof.
  unfold clean_text.
  assert (H1 := sub_runs_length LF
                  (sub_runs " "%char (map_chars ascii_or_space t))).
  assert (H2 := sub_runs_length " "%char (map_chars ascii_or_space t)).
  rewrite map_chars_length in H2. lia.
Qed.

(** [clean_text] deletes nothing but spaces and line feeds: the other
    characters of its result are, in order, those of the text with every
    character outside [string.printable] turned into a space; for a text
    of printable characters they are those of the text itself. *)
Theorem clean_text_keeps_not_blank (t : string) :
  filter_chars not_blank (clean_text t)
  = filter_chars not_blank (map_chars ascii_or_space t)
  /\ (all_chars (fun c => char_in c printable) t = true ->
      filter_chars not_blank (clean_text t) = filter_chars not_blank t).
Proof.
  assert (E : filter_chars not_blank (clean_text t)
              = filter_chars not_blank (map_chars ascii_or_space t)).
  { unfold clean_text. rewrite !sub_runs_filter; reflexivity. }
  split; [exact E|].
  intros Hp. rewrite E, (map_keep_fixed _ Hp). reflexivity.
Qed.

Lemma clean_text_keeps_not_blank_witness :
  filter_chars not_blank (clean_text "Born  1815-12-10") = "Born1815-12-10".
Proof.
  destruct (clean_text_keeps_not_blank "Born  1815-12-10") as [_ H].
  rewrite H; reflexivity.
Defined.

End CleanTextMore.

(** ** The lookups and the actions, further *)

Section LookupMore.

Variable W : Type.
Variable wikipedia_search : string -> M W (list string).
Variable WikipediaPage_html : string -> M W string.
Variable find_all_infobox : string -> list string.
Variable re_search : string -> string -> option Match.
Variable re_escape : string -> string.
Variable matcher : list string -> list string -> option (list string).

#[local] Abbreviation page_html :=
  (get_page_html wikipedia_search WikipediaPage_html).
#[local] Abbreviation box_text :=
  (infobox_text_of wikipedia_search WikipediaPage_html find_all_infobox).
#[local] Abbreviation the_table :=
  (pa_list wikipedia_search WikipediaPage_html find_all_infobox re_search
           re_escape).
#[local] Abbreviation search :=
  (search_pa_list wikipedia_search WikipediaPage_html find_all_infobox
                  re_search re_escape matcher).
#[local] Abbreviation polar :=
  (get_polar_radius wikipedia_search WikipediaPage_html find_all_infobox
                    re_search).
#[local] Abbreviation birth :=
  (get_birth_date wikipedia_search WikipediaPage_html find_all_infobox
                  re_search).
#[local] Abbreviation addr :=
  (get_address wikipedia_search WikipediaPage_html find_all_infobox
               re_search).
#[local] Abbreviation elev :=
  (get_elevation wikipedia_search WikipediaPage_html find_all_infobox
                 re_search).
#[local] Abbreviation runway :=
  (get_runway_length wikipedia_search WikipediaPage_html find_all_infobox
                     re_search re_escape).

(** A computation that ends well went well step by step. *)
Lemma bind_ok_inv (A B : Type) (c : M W A) (k : A -> M W B) (w w' : W)
      (b : B) :
  (x <- c ;; k x) w = (w', Ok b) ->
  exists w1 a, c w = (w1, Ok a) /\ k a w1 = (w', Ok b).
Proof.
  unfold bind. destruct (c w) as [w1 [a|e]]; intros H; [|discriminate].
  exists w1, a. split; [reflexivity|exact H].
Qed.

(** The text a lookup works on is the cleaned text of the FIRST infobox
    of the fetched page. *)
Lemma box_text_ok_inv (topic text : string) (w w' : W) :
  box_text topic w = (w', Ok text) ->
  exists html first others,
    page_html topic w = (w', Ok html)
    /\ find_all_infobox html = first :: others
    /\ text = clean_text first.
Proof.
  intros H. unfold infobox_text_of in H.
  apply bind_ok_inv in H. destruct H as (w1 & html & Hpage & H).
  apply bind_ok_inv in H. destruct H as (w2 & box & Hbox & H).
  unfold get_first_infobox_text in Hbox.
  destruct (find_all_infobox html) as [|first others] eqn:Hall;
    [discriminate|].
  inversion Hbox; subst. inversion H; subst.
  exists html, box, others. repeat split; assumption.
Qed.

(** Of the search results only the first is fetched: a failing search
    fails the fetch, an empty result list raises [IndexError] with no page
    asked for, and otherwise the page of the first result is the answer,
    whatever results follow it. *)
Theorem get_page_html_first_result (title : string) (w w' : W) :
  (forall e, wikipedia_search title w = (w', Raise e) ->
             page_html title w = (w', Raise e))
  /\ (wikipedia_search title w = (w', Ok []) ->
      page_html title w
      = (w', Raise (IndexError "list index out of range")))
  /\ (forall first others,
        wikipedia_search title w = (w', Ok (first :: others)) ->
        page_html title w = WikipediaPage_html first w').
Proof.
  unfold get_page_html. split; [|split].
  - intros e H. apply bind_raise. exact H.
  - intros H. rewrite (bind_ok _ _ _ _ _ w w' [] H). reflexivity.
  - intros first others H.
    rewrite (bind_ok _ _ _ _ _ w w' (first :: others) H). reflexivity.
Qed.

(** What a lookup hands to its regular expression is always clean: it is
    the cleaned text of the first infobox of the page, printable, without
    doubled spaces or line feeds, and cleaning it again changes nothing. *)
Theorem infobox_text_is_clean (topic text : string) (w w' : W)
        (Hbox : box_text topic w = (w', Ok text)) :
  (exists html first others,
     page_html topic w = (w', Ok html)
     /\ find_all_infobox html = first :: others
     /\ text = clean_text first)
  /\ clean_text text = text
  /\ all_chars (fun c => char_in c printable) text = true
  /\ no_double " "%char text = true
  /\ no_double LF text = true.
Proof.
  destruct (box_text_ok_inv topic text w w' Hbox)
    as (html & first & others & Hpage & Hall & ->).
  split; [exists html, first, others; repeat split; assumption|].
  split; [apply CleanTextMore.clean_text_twice|].
  apply CleanTextMore.clean_text_clean.
Qed.

(** When the page has an infobox, each of the five lookups ends as its
    regular expression decides: with the named group of the match, or with
    an [AttributeError] carrying the message of that field. *)
Theorem field_lookup_outcome (topic text : string) (w w' : W)
        (Hbox : box_text topic w = (w', Ok text)) :
  polar topic w
  = (w', match re_search
                 "(?:Polar radius.*?)(?: ?[\d]+ )?(?P<radius>[\d,.]+)(?:.*?)km"
                 text with
         | Some m => Ok (m "radius")
         | None =>
             Raise (AttributeError
                      "Page infobox has no polar radius information")
         end)
  /\ birth topic w
     = (w', match re_search "(?:Born\D*)(?P<birth>\d{4}-\d{2}-\d{2})"
                    text with
            | Some m => Ok (m "birth")
            | None =>
                Raise (AttributeError
                         "Page infobox has no birth information (at least none in xxxx-xx-xx format)")
            end)
  /\ addr topic w
     = (w', match re_search
                    "(?:Address\s*:?\s*)(?P<address>[\d\w\s\.,]+?)(?=\s*(?:Street|Coordinates)|$)"
                    text with
            | Some m => Ok (m "address")
            | None =>
                Raise (AttributeError
                         "Page infobox has no address information")
            end)
  /\ elev topic w
     = (w', match re_search
                    "(?:Elevation AMSL.*?)(?P<elevation>[\d,.]+)(?:.*?)ft"
                    text with
            | Some m => Ok (m "elevation")
            | None =>
                Raise (AttributeError
                         "Page infobox has no elevation information")
            end)
  /\ (forall name,
        runway topic name w
        = (w', match re_search
                       ("(?i)" ++ re_escape name
                        ++ "\n(?P<length>[^\n]*)")%string
                       text with
               | Some m => Ok (m "length")
               | None =>
                   Raise (AttributeError
                            "Page infobox has no runway length information")
               end)).
Proof.
  repeat split; try intros name;
    unfold get_polar_radius, get_birth_date, get_address, get_elevation,
      get_runway_length;
    rewrite (bind_ok _ _ _ _ _ w w' text Hbox);
    unfold get_match, bind, ret, raise;
    match goal with
    | |- context [re_search ?p ?t] => destruct (re_search p t)
    end; reflexivity.
Qed.

End LookupMore.

(** ** The regular expressions see clean text only *)

Section CleanTextOnly.

Variable W : Type.
Variable wikipedia_search : string -> M W (list string).
Variable WikipediaPage_html : string -> M W string.
Variable find_all_infobox : string -> list string.
Variable re_escape : string -> string.
Variable matcher : list string -> list string -> option (list string).

(** Two regular expression engines that agree on every clean text. *)
Variables re_search1 re_search2 : string -> string -> option Match.
Hypothesis agree_on_clean :
  forall pattern text,
    clean_text text = text ->
    re_search1 pattern text = re_search2 pattern text.

#[local] Abbreviation box_text :=
  (infobox_text_of wikipedia_search WikipediaPage_html find_all_infobox).

(** One lookup step: the text, then the match on it. *)
Lemma get_match_after_box_text (A : Type) (topic pattern error_text : string)
      (k : Match -> M W A) (w : W) :
  (infobox_text <- box_text topic ;;
   m <- get_match re_search1 infobox_text pattern error_text ;; k m) w
  = (infobox_text <- box_text topic ;;
     m <- get_match re_search2 infobox_text pattern error_text ;; k m) w.
Proof.
  unfold bind at 1 3.
  destruct (box_text topic w) as [w' [text|e]] eqn:Hbox; [|reflexivity].
  destruct (box_text_ok_inv W wikipedia_search WikipediaPage_html
              find_all_infobox topic text w w' Hbox)
    as (html & first & others & _ & _ & ->).
  unfold bind, get_match.
  rewrite (agree_on_clean pattern (clean_text first)
             (CleanTextMore.clean_text_twice first)).
  reflexivity.
Qed.

(** Equal first steps, or equal continuations, give equal computations. *)
Lemma bind_cong_l (A B : Type) (c1 c2 : M W A) (k : A -> M W B) (w : W) :
  c1 w = c2 w -> (x <- c1 ;; k x) w = (x <- c2 ;; k x) w.
Proof. intros H. unfold bind. rewrite H. reflexivity. Qed.

Lemma bind_ext (A B : Type) (c : M W A) (k1 k2 : A -> M W B) (w : W) :
  (forall a v, k1 a v = k2 a v) ->
  (x <- c ;; k1 x) w = (x <- c ;; k2 x) w.
Proof.
  intros H. unfold bind. destruct (c w) as [v [a|e]]; [apply H|reflexivity].
Qed.

Lemma actions_agree (mat : list string) (w : W) :
  birth_date wikipedia_search WikipediaPage_html find_all_infobox
             re_search1 mat w
  = birth_date wikipedia_search WikipediaPage_html find_all_infobox
               re_search2 mat w
  /\ polar_radius wikipedia_search WikipediaPage_html find_all_infobox
                  re_search1 mat w
     = polar_radius wikipedia_search WikipediaPage_html find_all_infobox
                    re_search2 mat w
  /\ address wikipedia_search WikipediaPage_html find_all_infobox
             re_search1 mat w
     = address wikipedia_search WikipediaPage_html find_all_infobox
               re_search2 mat w
  /\ elevation wikipedia_search WikipediaPage_html find_all_infobox
               re_search1 mat w
     = elevation wikipedia_search WikipediaPage_html find_all_infobox
                 re_search2 mat w
  /\ runway_length wikipedia_search WikipediaPage_html find_all_infobox
                   re_search1 re_escape mat w
     = runway_length wikipedia_search WikipediaPage_html find_all_infobox
                     re_search2 re_escape mat w.
Proof.
  split; [|split; [|split; [|split]]].
  - unfold birth_date. apply bind_cong_l.
    apply get_match_after_box_text.
  - unfold polar_radius. apply bind_ext. intros planet v.
    apply bind_cong_l. apply get_match_after_box_text.
  - unfold address. apply bind_cong_l. apply get_match_after_box_text.
  - unfold elevation. apply bind_cong_l. apply get_match_after_box_text.
  - unfold runway_length. apply bind_ext. intros airport v.
    apply bind_ext. intros name v'.
    apply bind_cong_l. apply get_match_after_box_text.
Qed.

(** The program asks its regular expression engine about clean texts
    only: two engines that agree on the texts [clean_text] leaves alone
    give the same outcome in every lookup and in every run of the
    dispatcher. *)
Theorem lookups_use_clean_text_only (topic : string) (src : list string)
        (w : W) :
  get_polar_radius wikipedia_search WikipediaPage_html find_all_infobox
                   re_search1 topic w
  = get_polar_radius wikipedia_search WikipediaPage_html find_all_infobox
                     re_search2 topic w
  /\ get_birth_date wikipedia_search WikipediaPage_html find_all_infobox
                    re_search1 topic w
     = get_birth_date wikipedia_search WikipediaPage_html find_all_infobox
                      re_search2 topic w
  /\ get_address wikipedia_search WikipediaPage_html find_all_infobox
                 re_search1 topic w
     = get_address wikipedia_search WikipediaPage_html find_all_infobox
                   re_search2 topic w
  /\ get_elevation wikipedia_search WikipediaPage_html find_all_infobox
                   re_search1 topic w
     = get_elevation wikipedia_search WikipediaPage_html find_all_infobox
                     re_search2 topic w
  /\ (forall name,
        get_runway_length wikipedia_search WikipediaPage_html
                          find_all_infobox re_search1 re_escape topic name w
        = get_runway_length wikipedia_search WikipediaPage_html
                            find_all_infobox re_search2 re_escape topic
                            name w)
  /\ search_pa_list wikipedia_search WikipediaPage_html find_all_infobox
                    re_search1 re_escape matcher src w
     = search_pa_list wikipedia_search WikipediaPage_html find_all_infobox
                      re_search2 re_escape matcher src w.
Proof.
  split; [apply get_match_after_box_text|].
  split; [apply get_match_after_box_text|].
  split; [apply get_match_after_box_text|].
  split; [apply get_match_after_box_text|].
  split; [intros name; apply get_match_after_box_text|].
  unfold search_pa_list, pa_list. cbn [search_pa_loop].
  repeat match goal with
         | |- context [matcher ?p src] =>
             destruct (matcher p src) as [mat|];
             [destruct (actions_agree mat w) as (E1 & E2 & E3 & E4 & E5);
              first [apply bind_cong_l; assumption|reflexivity]|]
         end.
  reflexivity.
Qed.

End CleanTextOnly.

(** ** The actions and the table of the program *)

Section ProgramMore.

Variable W : Type.
Variable wikipedia_search : string -> M W (list string).
Variable WikipediaPage_html : string -> M W string.
Variable find_all_infobox : string -> list string.
Variable re_search : string -> string -> option Match.
Variable re_escape : string -> string.
Variable matcher : list string -> list string -> option (list string).

#[local] Abbreviation the_table :=
  (pa_list wikipedia_search WikipediaPage_html find_all_infobox re_search
           re_escape).
#[local] Abbreviation search :=
  (search_pa_list wikipedia_search WikipediaPage_html find_all_infobox
                  re_search re_escape matcher).

(** A step followed by wrapping its value in a list. *)
Lemma bind_ret_ok_inv (A B : Type) (c : M W A) (f : A -> B) (w w' : W)
      (b : B) :
  (x <- c ;; ret (f x)) w = (w', Ok b) ->
  exists a, c w = (w', Ok a) /\ b = f a.
Proof.
  intros H. apply bind_ok_inv in H. destruct H as (w1 & a & Hc & Hk).
  inversion Hk; subst. exists a. split; [exact Hc|reflexivity].
Qed.

(** Each action of the table that ends well returns one answer. *)
Lemma table_actions_one_answer (pat : Pattern) (act : Action W)
      (mat answer : list string) (w w' : W) :
  In (pat, act) the_table ->
  act mat w = (w', Ok answer) ->
  exists line, answer = [line].
Proof.
  intros Hin Hact. unfold pa_list, In in Hin.
  repeat (destruct Hin as [E|Hin];
          [inversion E; subst; clear E|]); try destruct Hin.
  - apply bind_ret_ok_inv in Hact. destruct Hact as (r & _ & ->). eauto.
  - unfold polar_radius in Hact. apply bind_ok_inv in Hact.
    destruct Hact as (w1 & planet & _ & Hact).
    apply bind_ret_ok_inv in Hact. destruct Hact as (r & _ & ->). eauto.
  - apply bind_ret_ok_inv in Hact. destruct Hact as (r & _ & ->). eauto.
  - apply bind_ret_ok_inv in Hact. destruct Hact as (r & _ & ->). eauto.
  - unfold runway_length in Hact. apply bind_ok_inv in Hact.
    destruct Hact as (w1 & airport & _ & Hact).
    apply bind_ok_inv in Hact. destruct Hact as (w2 & name & _ & Hact).
    apply bind_ret_ok_inv in Hact. destruct Hact as (r & _ & ->). eauto.
  - discriminate Hact.
Qed.

(** The answers the actions give: the value of the lookup as the only
    element, with [" ft"] behind it for the elevation and the runway
    length; the runway pattern's first capture is the runway and its
    second the airport; the termination action never returns. *)
Theorem actions_wrap_one_lookup (mat answer : list string) (w w' : W) :
  (birth_date wikipedia_search WikipediaPage_html find_all_infobox
              re_search mat w = (w', Ok answer) ->
   exists r, get_birth_date wikipedia_search WikipediaPage_html
               find_all_infobox re_search (join " " mat) w = (w', Ok r)
             /\ answer = [r])
  /\ (polar_radius wikipedia_search WikipediaPage_html find_all_infobox
                   re_search mat w = (w', Ok answer) ->
      exists planet rest r,
        mat = planet :: rest
        /\ get_polar_radius wikipedia_search WikipediaPage_html
             find_all_infobox re_search planet w = (w', Ok r)
        /\ answer = [r])
  /\ (address wikipedia_search WikipediaPage_html find_all_infobox
              re_search mat w = (w', Ok answer) ->
      exists r, get_address wikipedia_search WikipediaPage_html
                  find_all_infobox re_search (join " " mat) w = (w', Ok r)
                /\ answer = [r])
  /\ (elevation wikipedia_search WikipediaPage_html find_all_infobox
                re_search mat w = (w', Ok answer) ->
      exists r, get_elevation wikipedia_search WikipediaPage_html
                  find_all_infobox re_search (join " " mat) w = (w', Ok r)
                /\ answer = [(r ++ " ft")%string])
  /\ (runway_length wikipedia_search WikipediaPage_html find_all_infobox
                    re_search re_escape mat w = (w', Ok answer) ->
      exists name airport rest r,
        mat = name :: airport :: rest
        /\ get_runway_length wikipedia_search WikipediaPage_html
             find_all_infobox re_search re_escape airport name w
           = (w', Ok r)
        /\ answer = [(r ++ " ft")%string])
  /\ @bye_action W mat w <> (w', Ok answer).
Proof.
  split; [|split; [|split; [|split; [|split]]]].
  - intros H. apply bind_ret_ok_inv in H. exact H.
  - intros H. unfold polar_radius, index in H.
    destruct mat as [|planet rest]; [discriminate H|].
    apply bind_ret_ok_inv in H. destruct H as (r & Hr & ->).
    exists planet, rest, r. repeat split. exact Hr.
  - intros H. apply bind_ret_ok_inv in H. exact H.
  - intros H. apply bind_ret_ok_inv in H. exact H.
  - intros H. unfold runway_length, index in H.
    destruct mat as [|name [|airport rest]]; try discriminate H.
    apply bind_ret_ok_inv in H. destruct H as (r & Hr & ->).
    exists name, airport, rest, r. repeat split. exact Hr.
  - discriminate.
Qed.

(** Captures that are too few for the action raise [IndexError] before
    any lookup starts, so the world is as it was: no capture for the polar
    radius, fewer than two for the runway length. *)
Theorem short_captures_raise_index_error (mat : list string) (w : W) :
  (mat = [] ->
   polar_radius wikipedia_search WikipediaPage_html find_all_infobox
                re_search mat w
   = (w, Raise (IndexError "list index out of range")))
  /\ (List.length mat < 2 ->
      runway_length wikipedia_search WikipediaPage_html find_all_infobox
                    re_search re_escape mat w
      = (w, Raise (IndexError "list index out of range"))).
Proof.
  split.
  - intros ->. reflexivity.
  - intros Hlen. destruct mat as [|x [|y rest]]; try reflexivity.
    simpl in Hlen. lia.
Qed.

(** With the table of the program the dispatcher returns one line, never
    more and never none; in particular the ["No answers"] branch is never
    taken, since no action of the table returns an empty list. *)
Theorem search_pa_list_one_line (src ans : list string) (w w' : W)
        (Hrun : search src w = (w', Ok ans)) :
  (exists line, ans = [line])
  /\ (ans = ["I don't understand"]
      \/ exists pat act mat,
           In (pat, act) the_table
           /\ matcher pat src = Some mat
           /\ act mat w = (w', Ok ans)).
Proof.
  unfold search_pa_list in Hrun.
  destruct (search_pa_loop_split W matcher the_table src w)
    as [[_ Hnone]|(pre & pat & act & post & mat & E & _ & Hmat & Hfirst)].
  - rewrite Hnone in Hrun. inversion Hrun. split; [eauto|left; reflexivity].
  - rewrite Hfirst in Hrun. apply bind_ret_ok_inv in Hrun.
    destruct Hrun as (answer & Hact & ->).
    assert (Hin : In (pat, act) the_table).
    { rewrite E. apply in_or_app. right. left. reflexivity. }
    destruct (table_actions_one_answer pat act mat answer w w' Hin Hact)
      as [line ->].
    split; [exists line; reflexivity|].
    right. exists pat, act, mat. repeat split; assumption.
Qed.

End ProgramMore.

(** ** Tokenizing a query line, further *)

Module TokenMore.
Import TokenFacts.

Lemma string_app_nil_r (s : string) : (s ++ "")%string = s.
Proof.
  induction s as [|a s IH]; simpl; [reflexivity|]. rewrite IH. reflexivity.
Qed.

(** A run of characters that are no whitespace is read into the token at
    hand. *)
Lemma split_from_run (tok cur rest : string) :
  all_chars (fun c => negb (isspace c)) tok = true ->
  split_from cur (tok ++ rest) = split_from (cur ++ tok) rest.
Proof.
  revert cur. induction tok as [|a tok IH]; intros cur Htok.
  - rewrite string_app_nil_r. reflexivity.
  - cbn [all_chars] in Htok. apply andb_true_iff in Htok.
    destruct Htok as [Ha Htok]. apply negb_true_iff in Ha.
    cbn [append split_from]. rewrite Ha, (IH _ Htok), string_app_assoc.
    reflexivity.
Qed.

(** Tokens joined by single spaces split into the same tokens. *)
Lemma split_join (toks : list string) :
  Forall (fun tok => tok <> EmptyString
                     /\ all_chars (fun c => negb (isspace c)) tok = true)
         toks ->
  split (join " " toks) = toks.
Proof.
  induction toks as [|tok toks IH]; intros Hall; [reflexivity|].
  inversion Hall as [|? ? [Hne Htok] Hrest]; subst.
  unfold split, join in *. destruct toks as [|tok2 toks].
  - cbn [concat]. rewrite <- (string_app_nil_r tok) at 1.
    rewrite (split_from_run tok EmptyString EmptyString Htok).
    cbn [append split_from]. destruct tok; [contradiction|reflexivity].
  - specialize (IH Hrest).
    change (concat " " (tok :: tok2 :: toks))
      with (tok ++ " " ++ concat " " (tok2 :: toks))%string.
    set (rest := concat " " (tok2 :: toks)) in *.
    rewrite (split_from_run tok EmptyString _ Htok).
    change (" " ++ rest)%string with (String " "%char rest).
    cbn [append split_from]. change (isspace " "%char) with true.
    cbv iota. rewrite IH.
    destruct tok; [contradiction|reflexivity].
Qed.

(** The tokens of [split] are not empty and hold no whitespace. *)
Lemma split_tokens_good (text : string) :
  Forall (fun tok => tok <> EmptyString
                     /\ all_chars (fun c => negb (isspace c)) tok = true)
         (split text).
Proof.
  apply Forall_forall. intros tok Hin. split.
  - exact (split_from_nonempty _ _ _ Hin).
  - apply (split_from_all_chars (fun c => negb (isspace c)) text EmptyString);
      [reflexivity| |exact Hin].
    clear. induction text as [|a text IH]; [reflexivity|].
    cbn [all_chars]. rewrite IH. destruct (isspace a); reflexivity.
Qed.

(** Round trip: the tokens of a text, joined by single spaces and split
    again, are the same tokens. *)
Theorem split_join_split (text : string) :
  split (join " " (split text)) = split text.
Proof. apply split_join. apply split_tokens_good. Qed.

(** [lower] neither makes nor unmakes a query mark or a whitespace, and a
    second [lower] changes nothing. *)
Lemma lower_char_facts (c : ascii) :
  Ascii.eqb (lower_char c) "?"%char = Ascii.eqb c "?"%char
  /\ isspace (lower_char c) = isspace c
  /\ lower_char (lower_char c) = lower_char c.
Proof.
  destruct c as [[] [] [] [] [] [] [] []]; vm_compute; repeat split.
Qed.

Lemma split_from_nil (text cur : string) :
  split_from cur text = []
  <-> cur = EmptyString /\ all_chars isspace text = true.
Proof.
  revert cur. induction text as [|a text IH]; intros cur.
  - simpl. destruct cur; split; try (intros [H _]); try discriminate;
      intros; repeat split.
  - cbn [split_from all_chars]. destruct (isspace a).
    + destruct cur.
      * rewrite IH. simpl. reflexivity.
      * split; [discriminate|intros [H _]; discriminate].
    + rewrite IH. split; [|intros [_ H]; discriminate].
      intros [H _]. destruct cur; discriminate.
Qed.

(** A line gives no token at all exactly when it holds nothing but
    whitespace and query marks; the empty line is one of them. *)
Theorem query_tokens_nil_iff_blank (line : string) :
  query_tokens line = []
  <-> all_chars (fun c => isspace c || Ascii.eqb c "?"%char) line = true.
Proof.
  unfold query_tokens, split. rewrite split_from_nil.
  assert (E : all_chars isspace (lower (replace "?"%char "" line))
              = all_chars (fun c => isspace c || Ascii.eqb c "?"%char) line).
  { unfold lower. induction line as [|a line IH]; [reflexivity|].
    cbn [replace all_chars]. destruct (Ascii.eqb a "?"%char) eqn:Ea.
    - cbn [append]. rewrite IH, orb_true_r. reflexivity.
    - cbn [map_chars all_chars]. rewrite IH, orb_false_r.
      destruct (lower_char_facts a) as (_ & -> & _). reflexivity. }
  rewrite E.
  split; [intros [_ H]; exact H|intros H; split; [reflexivity|exact H]].
Qed.

(** The tokens of a line are a normal form: typed again with single
    spaces between them, they give themselves. *)
Theorem query_tokens_normal_form (line : string) :
  query_tokens (join " " (query_tokens line)) = query_tokens line.
Proof.
  set (toks := query_tokens line).
  assert (Htok : forall tok, In tok toks -> all_chars token_char tok = true).
  { intros tok Hin.
    apply (split_from_all_chars token_char
             (lower (replace "?"%char "" line)) EmptyString);
      [reflexivity|apply lower_replace_chars|exact Hin]. }
  assert (Hq : all_chars (fun c => negb (Ascii.eqb c "?"%char)
                                   && Ascii.eqb (lower_char c) c)
                         (join " " toks) = true).
  { clearbody toks. unfold join.
    induction toks as [|tok toks IH]; [reflexivity|].
    assert (H1 : all_chars (fun c => negb (Ascii.eqb c "?"%char)
                                     && Ascii.eqb (lower_char c) c) tok
                 = true).
    { apply (CleanTextFacts.all_chars_impl token_char);
        [|apply Htok; left; reflexivity].
      intros c Hc. unfold token_char in Hc.
      apply andb_true_iff in Hc. destruct Hc as [Hc1 Hc2].
      apply andb_true_iff in Hc1. destruct Hc1 as [_ Hc1].
      rewrite Hc1, Hc2. reflexivity. }
    destruct toks as [|tok2 toks]; [exact H1|].
    change (concat " " (tok :: tok2 :: toks))
      with (tok ++ " " ++ concat " " (tok2 :: toks))%string.
    rewrite !all_chars_app, H1.
    rewrite IH; [reflexivity|].
    intros t Hin. apply Htok. right. exact Hin. }
  assert (Hid : forall s,
             all_chars (fun c => negb (Ascii.eqb c "?"%char)
                                 && Ascii.eqb (lower_char c) c) s = true ->
             lower (replace "?"%char "" s) = s).
  { unfold lower. induction s as [|a s IH]; [reflexivity|].
    cbn [all_chars]. intros H. apply andb_true_iff in H.
    destruct H as [Ha Hs]. apply andb_true_iff in Ha.
    destruct Ha as [Ha1 Ha2]. apply negb_true_iff in Ha1.
    apply Ascii.eqb_eq in Ha2.
    cbn [replace]. rewrite Ha1. cbn [map_chars]. rewrite Ha2, (IH Hs).
    reflexivity. }
  unfold query_tokens at 1. rewrite (Hid _ Hq).
  apply split_join. apply split_tokens_good.
Qed.

End TokenMore.

(** ** The query loop *)

Section QueryLoopFacts.

Variable W : Type.
Variable wikipedia_search : string -> M W (list string).
Variable WikipediaPage_html : string -> M W string.
Variable find_all_infobox : string -> list string.
Variable re_search : string -> string -> option Match.
Variable re_escape : string -> string.
Variable matcher : list string -> list string -> option (list string).

#[local] Abbreviation the_table :=
  (pa_list wikipedia_search WikipediaPage_html find_all_infobox re_search
           re_escape).
#[local] Abbreviation turn :=
  (query_turn wikipedia_search WikipediaPage_html find_all_infobox
              re_search re_escape matcher).
#[local] Abbreviation loop_from :=
  (query_loop_from wikipedia_search WikipediaPage_html find_all_infobox
                   re_search re_escape matcher).
#[local] Abbreviation loop :=
  (query_loop wikipedia_search WikipediaPage_html find_all_infobox
              re_search re_escape matcher).

(** A line that no pattern describes is answered by the sentinel. *)
Lemma turn_not_understood (line : string) (w : W) :
  none_match matcher the_table (query_tokens line) ->
  turn line w = (w, Ok ["I don't understand"]).
Proof.
  intros Hnone. unfold query_turn, search_pa_list.
  destruct (search_pa_loop_split W matcher the_table (query_tokens line) w)
    as [[_ Hrun]|(pre & pat & act & post & mat & E & _ & Hmat & _)];
    [exact Hrun|].
  rewrite (Hnone pat act) in Hmat; [discriminate|].
  rewrite E. apply in_or_app. right. left. reflexivity.
Qed.

Lemma last_app_nonempty (l1 l2 : list string) (d : string) :
  l2 <> [] -> last (l1 ++ l2) d = last l2 d.
Proof.
  intros Hne. induction l1 as [|a l1 IH]; [reflexivity|].
  change (last ((a :: l1) ++ l2) d)
    with (match l1 ++ l2 with
          | [] => a
          | _ :: _ => last (l1 ++ l2) d
          end).
  destruct (l1 ++ l2) eqn:E; [|exact IH].
  apply app_eq_nil in E. destruct E as [_ E]. contradiction.
Qed.

(** The loop is left by an exception only right after a prompt, and never
    by one of the two that [except] catches. *)
Lemma loop_from_uncaught (keys : list key) (w w' : W) (out : list string)
      (e : exn) :
  loop_from keys w = (w', out, Some e) ->
  e <> KeyboardInterrupt /\ e <> EOFError /\ last out EmptyString = prompt.
Proof.
  revert w out. induction keys as [|k keys IH]; intros w out H.
  - discriminate H.
  - destruct k as [line| |]; try discriminate H.
    cbn [query_loop_from] in H.
    destruct (turn line w) as [w1 [answers|e1]].
    + destruct (loop_from keys w1) as [[w2 out2] res2] eqn:Hrest.
      inversion H; subst.
      destruct (IH w1 out2 Hrest) as (H1 & H2 & H3).
      split; [exact H1|]. split; [exact H2|].
      assert (Hne : out2 <> []).
      { intros ->. unfold prompt in H3. discriminate H3. }
      change (last (([print ""; prompt] ++ map print answers) ++ out2)
                   EmptyString = prompt).
      rewrite last_app_nonempty; assumption.
    + destruct e1; inversion H; subst;
        (split; [discriminate|split; [discriminate|reflexivity]]).
Qed.

(** The session ends with the farewell, and reads no further key, when
    [input] meets Ctrl-C, Ctrl-D or the end of the keyboard, and when the
    turn of a typed line raises [KeyboardInterrupt] or [EOFError]. *)
Theorem query_loop_break (keys : list key) (w : W) :
  ((keys = [] \/ (exists rest, keys = CtrlC :: rest)
    \/ (exists rest, keys = CtrlD :: rest)) ->
   loop keys w
   = (w, [print welcome; print ""; prompt; print so_long], None))
  /\ (forall line rest w' e,
        keys = Typed line :: rest ->
        turn line w = (w', Raise e) ->
        e = KeyboardInterrupt \/ e = EOFError ->
        loop keys w
        = (w', [print welcome; print ""; prompt; print so_long], None)).
Proof.
  split.
  - intros [->|[[rest ->]|[rest ->]]]; reflexivity.
  - intros line rest w' e -> Hturn He.
    unfold query_loop. cbn [query_loop_from]. rewrite Hturn.
    destruct He as [->| ->]; reflexivity.
Qed.



(** Lines that no pattern describes cost nothing but their answer: each
    is met with an empty line, the prompt and ["I don't understand"], and
    the session goes on from the same world with the keys that follow. *)
Theorem query_loop_not_understood (lines : list string) (keys : list key)
        (w : W)
        (Hnone : forall line, In line lines ->
                   none_match matcher the_table (query_tokens line)) :
  loop_from (map Typed lines ++ keys) w
  = match loop_from keys w with
    | (w', out, res) =>
        (w',
         flat_map (fun _ => [print ""; prompt; print "I don't understand"])
                  lines ++ out,
         res)
    end.
Proof.
  induction lines as [|line lines IH].
  - simpl. destruct (loop_from keys w) as [[w' out] res]. reflexivity.
  - cbn [map app query_loop_from].
    rewrite (turn_not_understood line w (Hnone line (or_introl eq_refl))).
    rewrite IH by (intros l Hl; apply Hnone; right; exact Hl).
    destruct (loop_from keys w) as [[w' out] res]. reflexivity.
Qed.

(** What a session writes begins with the welcome; it ends with the
    farewell exactly when no exception leaves the loop, and an exception
    that leaves it is never [KeyboardInterrupt] or [EOFError]. *)
Theorem query_loop_farewell (keys : list key) (w w' : W)
        (out : list string) (res : option exn)
        (Hrun : loop keys w = (w', out, res)) :
  (exists body, out = print welcome :: body)
  /\ (res = None <-> last out EmptyString = print so_long)
  /\ (forall e, res = Some e -> e <> KeyboardInterrupt /\ e <> EOFError).
Proof.
  unfold query_loop in Hrun.
  destruct (loop_from keys w) as [[w1 out1] [e1|]] eqn:Hfrom;
    inversion Hrun; subst; clear Hrun.
  - destruct (loop_from_uncaught keys w w' out1 e1 Hfrom) as (H1 & H2 & H3).
    split; [eexists; reflexivity|]. split.
    + split; [discriminate|]. intros Hlast.
      assert (Hne : out1 <> []).
      { intros ->. unfold prompt in H3. discriminate H3. }
      change (last ([print welcome] ++ out1) EmptyString = print so_long)
        in Hlast.
      rewrite last_app_nonempty in Hlast by exact Hne.
      rewrite H3 in Hlast. unfold prompt, print, so_long in Hlast.
      discriminate Hlast.
    + intros e E. inversion E; subst. split; assumption.
  - split; [eexists; reflexivity|]. split.
    + split; [intros _|reflexivity].
      change (last (([print welcome] ++ out1) ++ [print so_long])
                   EmptyString = print so_long).
      apply last_last.
    + intros e E. discriminate E.
Qed.

End QueryLoopFacts.

(** ** The further properties on the closed world *)

Module DemoMore.
Import Demo.

#[local] Abbreviation demo_table :=
  (pa_list wikipedia_search WikipediaPage_html find_all_infobox re_search
           re_escape).

Lemma search_answer_never_empty_witness : ["3376.2"] <> @nil string.
Proof.
  apply (search_answer_never_empty World Matcher.match_ demo_table
           (query_tokens "What is the polar radius of Mars?")
           ["3376.2"] 0 2).
  reflexivity.
Defined.

Lemma clean_text_fixed_points_witness :
  clean_text "Born 1815-12-10" = "Born 1815-12-10".
Proof.
  apply (CleanTextMore.clean_text_fixed_points "Born 1815-12-10").
  repeat split.
Defined.

Lemma get_page_html_first_result_witness :
  get_page_html wikipedia_search WikipediaPage_html "nowhere" 0
  = (1, Raise (IndexError "list index out of range"))
  /\ get_page_html wikipedia_search WikipediaPage_html "mars" 0
     = WikipediaPage_html "mars" 1.
Proof.
  split.
  - apply (get_page_html_first_result World wikipedia_search
             WikipediaPage_html "nowhere" 0 1).
    reflexivity.
  - apply (get_page_html_first_result World wikipedia_search
             WikipediaPage_html "mars" 0 1) with (others := []).
    reflexivity.
Defined.

Lemma infobox_text_is_clean_witness :
  clean_text "Polar radius 3376.2 km" = "Polar radius 3376.2 km".
Proof.
  apply (infobox_text_is_clean World wikipedia_search WikipediaPage_html
           find_all_infobox "mars" "Polar radius 3376.2 km" 0 2).
  reflexivity.
Defined.

Lemma field_lookup_outcome_witness :
  get_elevation wikipedia_search WikipediaPage_html find_all_infobox
                re_search "mars" 0
  = (2, Raise (AttributeError "Page infobox has no elevation information")).
Proof.
  destruct (field_lookup_outcome World wikipedia_search WikipediaPage_html
              find_all_infobox re_search re_escape "mars"
              "Polar radius 3376.2 km" 0 2 eq_refl)
    as (_ & _ & _ & Helev & _).
  exact Helev.
Defined.

Lemma lookups_use_clean_text_only_witness :
  search (query_tokens "What is the polar radius of Mars?") 0
  = search_pa_list wikipedia_search WikipediaPage_html find_all_infobox
      (fun pattern text =>
         if String.eqb (clean_text text) text then re_search pattern text
         else None)
      re_escape Matcher.match_
      (query_tokens "What is the polar radius of Mars?") 0.
Proof.
  apply (lookups_use_clean_text_only World wikipedia_search
           WikipediaPage_html find_all_infobox re_escape Matcher.match_
           re_search
           (fun pattern text =>
              if String.eqb (clean_text text) text then re_search pattern text
              else None)).
  - intros pattern text H. rewrite H, String.eqb_refl. reflexivity.
  - exact "mars".
Defined.

Lemma actions_wrap_one_lookup_witness :
  exists r,
    get_polar_radius wikipedia_search WikipediaPage_html find_all_infobox
                     re_search "mars" 0 = (2, Ok r)
    /\ ["3376.2"] = [r].
Proof.
  destruct (actions_wrap_one_lookup World wikipedia_search
              WikipediaPage_html find_all_infobox re_search re_escape
              ["mars"] ["3376.2"] 0 2) as (_ & Hpolar & _).
  destruct (Hpolar eq_refl) as (planet & rest & r & E & Hr & Hans).
  inversion E; subst. exists r. split; assumption.
Defined.

Lemma short_captures_raise_index_error_witness :
  runway_length wikipedia_search WikipediaPage_html find_all_infobox
                re_search re_escape ["4l"] 5
  = (5, Raise (IndexError "list index out of range")).
Proof.
  apply (short_captures_raise_index_error World wikipedia_search
           WikipediaPage_html find_all_infobox re_search re_escape
           ["4l"] 5).
  simpl. lia.
Defined.

Lemma search_pa_list_one_line_witness : exists line, ["3376.2"] = [line].
Proof.
  apply (search_pa_list_one_line World wikipedia_search WikipediaPage_html
           find_all_infobox re_search re_escape Matcher.match_
           (query_tokens "What is the polar radius of Mars?")
           ["3376.2"] 0 2).
  reflexivity.
Defined.

Lemma query_tokens_nil_iff_blank_witness : query_tokens " ? ?? " = [].
Proof.
  apply (TokenMore.query_tokens_nil_iff_blank " ? ?? "). reflexivity.
Defined.

Lemma query_loop_break_witness :
  session [CtrlD; Typed "when was ada born"] 4
  = (4, [print welcome; print ""; prompt; print so_long], None)
  /\ session [Typed "Bye?"; Typed "when was ada born"] 4
     = (4, [print welcome; print ""; prompt; print so_long], None).
Proof.
  split.
  - apply (query_loop_break World wikipedia_search WikipediaPage_html
             find_all_infobox re_search re_escape Matcher.match_
             [CtrlD; Typed "when was ada born"] 4).
    right. right. eexists. reflexivity.
  - apply (query_loop_break World wikipedia_search WikipediaPage_html
             find_all_infobox re_search re_escape Matcher.match_
             [Typed "Bye?"; Typed "when was ada born"] 4)
      with (line := "Bye?") (rest := [Typed "when was ada born"])
           (e := KeyboardInterrupt).
    + reflexivity.
    + reflexivity.
    + left. reflexivity.
Defined.



Lemma query_loop_not_understood_witness :
  query_loop_from wikipedia_search WikipediaPage_html find_all_infobox
                  re_search re_escape Matcher.match_
                  [Typed "hello"; Typed "who are you?"; CtrlC] 0
  = (0, [print ""; prompt; print "I don't understand";
         print ""; prompt; print "I don't understand";
         print ""; prompt], None).
Proof.
  apply (query_loop_not_understood World wikipedia_search
           WikipediaPage_html find_all_infobox re_search re_escape
           Matcher.match_ ["hello"; "who are you?"] [CtrlC] 0).
  intros line [<-|[<-|[]]]; intros pat act Hin; unfold pa_list, In in Hin;
    repeat (destruct Hin as [E|Hin]; [inversion E; reflexivity|]);
    destruct Hin.
Defined.

Lemma query_loop_farewell_witness :
  exists body,
    [print welcome; print ""; prompt; print so_long] = print welcome :: body.
Proof.
  apply (query_loop_farewell World wikipedia_search WikipediaPage_html
           find_all_infobox re_search re_escape Matcher.match_
           [Typed "bye"] 0 0
           [print welcome; print ""; prompt; print so_long] None).
  reflexivity.
Defined.

End DemoMore.
